(** * pymodbus.payload: BinaryPayloadBuilder and BinaryPayloadDecoder

    A shallow embedding of [pymodbus/payload.py].  Byte strings are lists of
    bytes, Python integers are [Z], the two classes are records whose methods
    are computations in a state-and-exception monad (an exception leaves the
    mutations made before it in place, as in Python). *)

From Stdlib Require Import ZArith List Bool Lia.
From coqutil Require Import Byte Word.LittleEndianList.
Import ListNotations.
Local Open Scope Z_scope.

Set Implicit Arguments.
Set Warnings "-register-all".

(** ** Python values and built-ins used by the module *)

Definition bytes := list byte.

(** [pymodbus.constants.Endian]: [Big] is the struct prefix ">", [Little] is "<". *)
Inductive Endian := Big | Little.

Definition Endian_eqb (a b : Endian) : bool :=
  match a, b with
  | Big, Big | Little, Little => true
  | _, _ => false
  end.

(** The exceptions the module can end in. *)
Inductive exn :=
| struct_error          (* struct.error, raised by pack and unpack *)
| ParameterException    (* pymodbus.exceptions.ParameterException *)
| TypeError
| ValueError.

Inductive result (A : Type) :=
| Ret (a : A)
| Raise (e : exn).
Arguments Ret {A} a.
Arguments Raise {A} e.

Definition rbind {A B} (m : result A) (k : A -> result B) : result B :=
  match m with
  | Ret a => k a
  | Raise e => Raise e
  end.

Fixpoint mapM {A B} (f : A -> result B) (l : list A) : result (list B) :=
  match l with
  | [] => Ret []
  | x :: xs => rbind (f x) (fun y => rbind (mapM f xs) (fun ys => Ret (y :: ys)))
  end.

(** A method of an object with state [S]: it returns a value or raises, and
    leaves the object in a new state either way. *)
Definition M (S A : Type) := S -> result A * S.

Definition ret {S A} (a : A) : M S A := fun s => (Ret a, s).
Definition bind {S A B} (m : M S A) (k : A -> M S B) : M S B :=
  fun s => match m s with
           | (Ret a, s') => k a s'
           | (Raise e, s') => (Raise e, s')
           end.
Definition get {S} : M S S := fun s => (Ret s, s).
Definition put {S} (s : S) : M S unit := fun _ => (Ret tt, s).
Definition lift {S A} (r : result A) : M S A := fun s => (r, s).

Declare Scope method_scope.
Delimit Scope method_scope with method.
Notation "x <- m ;; k" := (bind m (fun x => k))
  (at level 61, m at next level, right associativity) : method_scope.
Notation "m ;; k" := (bind m (fun _ => k))
  (at level 61, right associativity) : method_scope.

(** A generic Python object, as far as the two factories inspect it. *)
Inductive pyobj :=
| PyNone
| PyBool (b : bool)
| PyInt (z : Z)
| PyBytes (s : bytes)
| PyList (l : list pyobj)
| PyTuple (l : list pyobj).

(** Truth value of an object, [bool(x)]. *)
Definition truthy (x : pyobj) : bool :=
  match x with
  | PyNone => false
  | PyBool b => b
  | PyInt z => negb (z =? 0)
  | PyBytes s => negb (Nat.eqb (length s) 0)
  | PyList l => negb (Nat.eqb (length l) 0)
  | PyTuple l => negb (Nat.eqb (length l) 0)
  end.

Definition len {A} (l : list A) : Z := Z.of_nat (length l).

(** Slice bound [i] of a sequence of length [n]: a negative bound counts from
    the end, and bounds are clipped to [0, n]. *)
Definition py_index (n i : Z) : Z :=
  if i <? 0 then Z.max (i + n) 0 else Z.min i n.

(** [l[i:j]] *)
Definition py_slice {A} (l : list A) (i j : Z) : list A :=
  let lo := py_index (len l) i in
  let hi := py_index (len l) j in
  firstn (Z.to_nat (hi - lo)) (skipn (Z.to_nat lo) l).

(** [range(0, stop, step)] for a positive [step]. *)
Definition py_range0 (stop step : Z) : list Z :=
  map (fun k => Z.of_nat k * step) (seq 0 (Z.to_nat ((stop + step - 1) / step))).

(** [[l[i : i + size] for i in range(0, len(l), size)]] *)
Definition py_chunks {A} (l : list A) (size : Z) : list (list A) :=
  map (fun i => py_slice l i (i + size)) (py_range0 (len l) size).

(** ** The struct module, for the format strings the module builds

    A format is a byte-order prefix and one code; the prefix "!" (network
    order) is big-endian, as ">" is.  A float is carried by its IEEE 754 bit
    pattern in the width of the code: the conversion between a Python float
    and that pattern is CPython's and no part of this module.  That is exact
    for writing a value of the format and reading it back; the other way
    round CPython does not keep every 16 or 32-bit pattern (the payload of a
    NaN may change), so nothing is stated here of reading a float pattern
    and writing it back. *)
Module struct.

Inductive code :=
| c_b | c_B | c_h | c_H | c_i | c_I | c_q | c_Q | c_e | c_f | c_d.

Inductive kind := Signed | Unsigned | Float.

Definition kind_of (c : code) : kind :=
  match c with
  | c_b | c_h | c_i | c_q => Signed
  | c_B | c_H | c_I | c_Q => Unsigned
  | c_e | c_f | c_d => Float
  end.

Definition calcsize (c : code) : nat :=
  match c with
  | c_b | c_B => 1
  | c_h | c_H | c_e => 2
  | c_i | c_I | c_f => 4
  | c_q | c_Q | c_d => 8
  end%nat.

(** [fstring.lower()] *)
Definition lower (c : code) : code :=
  match c with
  | c_B => c_b | c_H => c_h | c_I => c_i | c_Q => c_q
  | _ => c
  end.

Definition bits (c : code) : Z := 8 * Z.of_nat (calcsize c).

(** The values [pack] accepts for a code. *)
Definition in_range (c : code) (v : Z) : bool :=
  match kind_of c with
  | Signed => (- 2 ^ (bits c - 1) <=? v) && (v <? 2 ^ (bits c - 1))
  | Unsigned | Float => (0 <=? v) && (v <? 2 ^ bits c)
  end.

(** Bytes of [v] in [n] bytes, most significant first. *)
Definition be_split (n : nat) (v : Z) : bytes := rev (le_split n v).
Definition be_combine (s : bytes) : Z := le_combine (rev s).

Definition to_order (o : Endian) (n : nat) (v : Z) : bytes :=
  match o with
  | Big => be_split n v
  | Little => le_split n v
  end.

Definition of_order (o : Endian) (s : bytes) : Z :=
  match o with
  | Big => be_combine s
  | Little => le_combine s
  end.

(** Reading of an unsigned pattern [u] as a value of the code. *)
Definition interp (c : code) (u : Z) : Z :=
  match kind_of c with
  | Signed => if u <? 2 ^ (bits c - 1) then u else u - 2 ^ bits c
  | Unsigned | Float => u
  end.

(** [pack(o + c, v)] *)
Definition pack (o : Endian) (c : code) (v : Z) : result bytes :=
  if in_range c v then Ret (to_order o (calcsize c) v) else Raise struct_error.

(** [unpack(o + c, s)[0]]: the buffer must have exactly the size of the format. *)
Definition unpack (o : Endian) (c : code) (s : bytes) : result Z :=
  if Nat.eqb (length s) (calcsize c)
  then Ret (interp c (of_order o s))
  else Raise struct_error.

(** The words of a buffer of [n] big-endian unsigned shorts. *)
Fixpoint shorts (n : nat) (s : bytes) : list Z :=
  match n with
  | O => []
  | S n' => be_combine (firstn 2 s) :: shorts n' (skipn 2 s)
  end.

(** [unpack("!{n}H", s)] *)
Definition unpack_nH (n : Z) (s : bytes) : result (list Z) :=
  if len s =? 2 * n then Ret (shorts (Z.to_nat n) s) else Raise struct_error.

(** [pack(o + c, x)] on an arbitrary object: integers (and booleans, which
    are integers) are packed, anything else is refused. *)
Definition pack_obj (o : Endian) (c : code) (x : pyobj) : result bytes :=
  match x with
  | PyInt z => pack o c z
  | PyBool b => pack o c (Z.b2z b)
  | _ => Raise struct_error
  end.

(** [pack(o + str(len(s)) + "s", s)]: the bytes themselves. *)
Definition pack_s (o : Endian) (s : bytes) : result bytes := Ret s.

End struct.

(** The table [WC] of byte widths, keyed by lower-case code (its entry for "l"
    is for a code no method uses). *)
Definition WC (c : struct.code) : option Z :=
  match c with
  | struct.c_b => Some 1
  | struct.c_h => Some 2
  | struct.c_e => Some 2
  | struct.c_i => Some 4
  | struct.c_q => Some 8
  | struct.c_f => Some 4
  | struct.c_d => Some 8
  | _ => None
  end.

(** [WC.get(fstring.lower()) // 2]: dividing a missing entry raises. *)
Definition WC_words (c : struct.code) : result Z :=
  match WC (struct.lower c) with
  | Some w => Ret (w / 2)
  | None => Raise TypeError
  end.

(** ** pymodbus.utilities *)

(** The byte whose bits, most significant first, are [g]. *)
Definition byte_of_msb_bits (g : list bool) : byte :=
  byte.of_Z (fold_left (fun acc (b : bool) => 2 * acc + Z.b2z b) g 0).

(** The eight bits of a byte, most significant first. *)
Definition msb_bits_of_byte (b : byte) : list bool :=
  map (fun i => Z.testbit (byte.unsigned b) i) [7; 6; 5; 4; 3; 2; 1; 0].

(** Modelled from the spec: [pymodbus.utilities.pack_bitstring] is not among
    the sources.  The input is padded on the left with [false] until its
    length is a multiple of 8 (the docstring of [add_bits] says so too); each
    group of 8 is reversed and then packed into one byte, most significant
    bit first. *)
Definition pack_bitstring (bits : list bool) : bytes :=
  let padded := repeat false (Z.to_nat ((- len bits) mod 8)) ++ bits in
  map (fun g => byte_of_msb_bits (rev g)) (py_chunks padded 8).

(** Modelled from the spec: [pymodbus.utilities.unpack_bitstring] is not among
    the sources.  Each byte gives its 8 bits in the convention of the packer:
    the bits of the byte, most significant first, reversed. *)
Definition unpack_bitstring (s : bytes) : list bool :=
  flat_map (fun b => rev (msb_bits_of_byte b)) s.

(** Modelled from the spec: [pymodbus.utilities.make_byte_string] is not among
    the sources.  A string is an opaque run of raw bytes, taken verbatim. *)
Definition make_byte_string (s : bytes) : bytes := s.

(** [[bool(int(bit)) for bit in format(reg, "016b")]]: the binary digits of
    [reg], most significant first, padded with zeros to 16 digits; the sign of
    a negative number is no digit. *)
Definition format_016b (reg : Z) : result (list bool) :=
  if reg <? 0 then Raise ValueError
  else
    let n := Nat.max 16 (Z.to_nat (Z.log2 reg + 1)) in
    Ret (map (fun k => Z.testbit reg (Z.of_nat k)) (rev (seq 0 n))).

(** ** class BinaryPayloadBuilder *)
Module BinaryPayloadBuilder.
Import struct.
Local Open Scope method_scope.

Record t := mk {
  _payload : list bytes;
  _byteorder : Endian;
  _wordorder : Endian;
  _repack : bool
}.

(** [__init__(payload=None, byteorder=Endian.Little, wordorder=Endian.Big, repack=False)] *)
Definition __init__ (payload : option (list bytes))
    (byteorder wordorder : Endian) (repack : bool) : t :=
  mk (match payload with Some p => p | None => [] end) byteorder wordorder repack.

(** [self._payload.append(value)] *)
Definition append (value : bytes) : M t unit :=
  fun self => (Ret tt, mk (_payload self ++ [value]) (_byteorder self)
                          (_wordorder self) (_repack self)).

Definition _pack_words (fstring : code) (value : Z) : M t bytes :=
  self <- get ;;
  value <- lift (pack Big fstring value) ;;
  wordorder <- lift (WC_words fstring) ;;
  payload <- lift (unpack_nH wordorder value) ;;
  let payload :=
    if Endian_eqb (_wordorder self) Little then rev payload else payload in
  payload <- lift (mapM (pack (_byteorder self) c_H) payload) ;;
  ret (concat payload).

Definition to_string : M t bytes :=
  self <- get ;;
  ret (concat (_payload self)).

Definition reset : M t unit :=
  fun self => (Ret tt, mk [] (_byteorder self) (_wordorder self) (_repack self)).

Definition build : M t (list bytes) :=
  string <- to_string ;;
  let length := len string in
  let string := string ++ repeat Byte.x00 (Z.to_nat (length mod 2)) in
  ret (map (fun i => py_slice string i (i + 2)) (py_range0 length 2)).

Definition to_registers : M t (list Z) :=
  self <- get ;;
  payload <- build ;;
  if _repack self
  then lift (mapM (unpack (_byteorder self) c_H) payload)
  else lift (mapM (unpack Big c_H) payload).

Definition to_coils : M t (list bool) :=
  payload <- to_registers ;;
  coils <- lift (mapM format_016b payload) ;;
  ret (concat coils).

Definition add_bits (values : list bool) : M t unit :=
  let value := pack_bitstring values in
  append value.

Definition add_8bit_uint (value : Z) : M t unit :=
  self <- get ;;
  p <- lift (pack (_byteorder self) c_B value) ;;
  append p.

Definition add_16bit_uint (value : Z) : M t unit :=
  self <- get ;;
  p <- lift (pack (_byteorder self) c_H value) ;;
  append p.

Definition add_32bit_uint (value : Z) : M t unit :=
  p_string <- _pack_words c_I value ;;
  append p_string.

Definition add_64bit_uint (value : Z) : M t unit :=
  p_string <- _pack_words c_Q value ;;
  append p_string.

Definition add_8bit_int (value : Z) : M t unit :=
  self <- get ;;
  p <- lift (pack (_byteorder self) c_b value) ;;
  append p.

Definition add_16bit_int (value : Z) : M t unit :=
  self <- get ;;
  p <- lift (pack (_byteorder self) c_h value) ;;
  append p.

Definition add_32bit_int (value : Z) : M t unit :=
  p_string <- _pack_words c_i value ;;
  append p_string.

Definition add_64bit_int (value : Z) : M t unit :=
  p_string <- _pack_words c_q value ;;
  append p_string.

Definition add_16bit_float (value : Z) : M t unit :=
  p_string <- _pack_words c_e value ;;
  append p_string.

Definition add_32bit_float (value : Z) : M t unit :=
  p_string <- _pack_words c_f value ;;
  append p_string.

Definition add_64bit_float (value : Z) : M t unit :=
  p_string <- _pack_words c_d value ;;
  append p_string.

Definition add_string (value : bytes) : M t unit :=
  self <- get ;;
  let value := make_byte_string value in
  p <- lift (pack_s (_byteorder self) value) ;;
  append p.

End BinaryPayloadBuilder.

(** ** class BinaryPayloadDecoder *)
Module BinaryPayloadDecoder.
Import struct.
Local Open Scope method_scope.

Record t := mk {
  _payload : bytes;
  _pointer : Z;
  _byteorder : Endian;
  _wordorder : Endian
}.

(** [__init__(payload, byteorder=Endian.Little, wordorder=Endian.Big)] *)
Definition __init__ (payload : bytes) (byteorder wordorder : Endian) : t :=
  mk payload 0 byteorder wordorder.

(** The default of the [wordorder] argument of [__init__]. *)
Definition default_wordorder : Endian := Big.

Definition fromRegisters (registers : pyobj) (byteorder wordorder : Endian)
  : result t :=
  match registers with
  | PyList registers =>
      rbind (mapM (pack_obj Big c_H) registers) (fun packed =>
      let payload := concat packed in
      Ret (__init__ payload byteorder wordorder))
  | _ => Raise ParameterException
  end.

Definition bit_chunks {A} (coils : list A) (size : Z) : list (list A) :=
  py_chunks coils size.

Definition fromCoils (coils : pyobj) (byteorder wordorder : Endian)
  : result t :=
  match coils with
  | PyList coils =>
      let padding := len coils mod 8 in
      let coils :=
        if padding =? 0 then coils
        else repeat (PyBool false) (Z.to_nat padding) ++ coils in
      let chunks := bit_chunks coils 8 in
      let payload :=
        fold_left (fun payload chunk =>
                     payload ++ pack_bitstring (map truthy (rev chunk)))
                  chunks [] in
      Ret (__init__ payload byteorder default_wordorder)
  | _ => Raise ParameterException
  end.

(** [self._pointer += n] *)
Definition advance (n : Z) : M t unit :=
  fun self => (Ret tt, mk (_payload self) (_pointer self + n)
                          (_byteorder self) (_wordorder self)).

Definition _unpack_words (fstring : code) (handle : bytes) : M t bytes :=
  self <- get ;;
  let handle := make_byte_string handle in
  wc_value <- lift (WC_words fstring) ;;
  handle <- lift (unpack_nH wc_value handle) ;;
  let handle :=
    if Endian_eqb (_wordorder self) Little then rev handle else handle in
  handle <- lift (mapM (pack (_byteorder self) c_H) handle) ;;
  ret (concat handle).

Definition reset : M t unit :=
  fun self => (Ret tt, mk (_payload self) 0 (_byteorder self) (_wordorder self)).

Definition decode_8bit_uint : M t Z :=
  advance 1 ;;
  self <- get ;;
  let handle := py_slice (_payload self) (_pointer self - 1) (_pointer self) in
  let handle := make_byte_string handle in
  lift (unpack (_byteorder self) c_B handle).

Definition decode_bits : M t (list bool) :=
  advance 1 ;;
  self <- get ;;
  let handle := py_slice (_payload self) (_pointer self - 1) (_pointer self) in
  let handle := make_byte_string handle in
  ret (unpack_bitstring handle).

Definition decode_16bit_uint : M t Z :=
  advance 2 ;;
  self <- get ;;
  let handle := py_slice (_payload self) (_pointer self - 2) (_pointer self) in
  let handle := make_byte_string handle in
  lift (unpack (_byteorder self) c_H handle).

Definition decode_32bit_uint : M t Z :=
  advance 4 ;;
  self <- get ;;
  let handle := py_slice (_payload self) (_pointer self - 4) (_pointer self) in
  handle <- _unpack_words c_I handle ;;
  lift (unpack Big c_I handle).

Definition decode_64bit_uint : M t Z :=
  advance 8 ;;
  self <- get ;;
  let handle := py_slice (_payload self) (_pointer self - 8) (_pointer self) in
  handle <- _unpack_words c_Q handle ;;
  lift (unpack Big c_Q handle).

Definition decode_8bit_int : M t Z :=
  advance 1 ;;
  self <- get ;;
  let handle := py_slice (_payload self) (_pointer self - 1) (_pointer self) in
  let handle := make_byte_string handle in
  lift (unpack (_byteorder self) c_b handle).

Definition decode_16bit_int : M t Z :=
  advance 2 ;;
  self <- get ;;
  let handle := py_slice (_payload self) (_pointer self - 2) (_pointer self) in
  let handle := make_byte_string handle in
  lift (unpack (_byteorder self) c_h handle).

Definition decode_32bit_int : M t Z :=
  advance 4 ;;
  self <- get ;;
  let handle := py_slice (_payload self) (_pointer self - 4) (_pointer self) in
  handle <- _unpack_words c_i handle ;;
  lift (unpack Big c_i handle).

Definition decode_64bit_int : M t Z :=
  advance 8 ;;
  self <- get ;;
  let handle := py_slice (_payload self) (_pointer self - 8) (_pointer self) in
  handle <- _unpack_words c_q handle ;;
  lift (unpack Big c_q handle).

Definition decode_16bit_float : M t Z :=
  advance 2 ;;
  self <- get ;;
  let handle := py_slice (_payload self) (_pointer self - 2) (_pointer self) in
  handle <- _unpack_words c_e handle ;;
  lift (unpack Big c_e handle).

Definition decode_32bit_float : M t Z :=
  advance 4 ;;
  self <- get ;;
  let handle := py_slice (_payload self) (_pointer self - 4) (_pointer self) in
  handle <- _unpack_words c_f handle ;;
  lift (unpack Big c_f handle).

Definition decode_64bit_float : M t Z :=
  advance 8 ;;
  self <- get ;;
  let handle := py_slice (_payload self) (_pointer self - 8) (_pointer self) in
  handle <- _unpack_words c_d handle ;;
  lift (unpack Big c_d handle).

Definition decode_string (size : Z) : M t bytes :=
  advance size ;;
  self <- get ;;
  ret (py_slice (_payload self) (_pointer self - size) (_pointer self)).

Definition skip_bytes (nbytes : Z) : M t unit :=
  advance nbytes.

End BinaryPayloadDecoder.

Module B := BinaryPayloadBuilder.
Module D := BinaryPayloadDecoder.

(** ** Running a method *)

Definition run {S A} (m : M S A) (s : S) : result A := fst (m s).
Definition exec {S A} (m : M S A) (s : S) : S := snd (m s).

Local Open Scope method_scope.

(** ** The typed operations, by numeric type *)

Inductive numtype :=
| U8 | I8 | U16 | I16 | U32 | I32 | U64 | I64 | F16 | F32 | F64.

Definition code_of (t : numtype) : struct.code :=
  match t with
  | U8 => struct.c_B | I8 => struct.c_b
  | U16 => struct.c_H | I16 => struct.c_h
  | U32 => struct.c_I | I32 => struct.c_i
  | U64 => struct.c_Q | I64 => struct.c_q
  | F16 => struct.c_e | F32 => struct.c_f | F64 => struct.c_d
  end.

(** Byte width of a numeric type. *)
Definition width (t : numtype) : Z :=
  match t with
  | U8 | I8 => 1
  | U16 | I16 | F16 => 2
  | U32 | I32 | F32 => 4
  | U64 | I64 | F64 => 8
  end.

(** The values of a numeric type (for a float, its bit patterns). *)
Definition representable (t : numtype) (x : Z) : bool :=
  struct.in_range (code_of t) x.

Definition add (t : numtype) : Z -> M B.t unit :=
  match t with
  | U8 => B.add_8bit_uint | I8 => B.add_8bit_int
  | U16 => B.add_16bit_uint | I16 => B.add_16bit_int
  | U32 => B.add_32bit_uint | I32 => B.add_32bit_int
  | U64 => B.add_64bit_uint | I64 => B.add_64bit_int
  | F16 => B.add_16bit_float | F32 => B.add_32bit_float
  | F64 => B.add_64bit_float
  end.

Definition decode (t : numtype) : M D.t Z :=
  match t with
  | U8 => D.decode_8bit_uint | I8 => D.decode_8bit_int
  | U16 => D.decode_16bit_uint | I16 => D.decode_16bit_int
  | U32 => D.decode_32bit_uint | I32 => D.decode_32bit_int
  | U64 => D.decode_64bit_uint | I64 => D.decode_64bit_int
  | F16 => D.decode_16bit_float | F32 => D.decode_32bit_float
  | F64 => D.decode_64bit_float
  end.

(** One call on a decoder. *)
Inductive op :=
| Decode (t : numtype)
| DecodeBits
| DecodeString (size : Z)
| SkipBytes (nbytes : Z)
| Reset.

(** What a call returns. *)
Inductive value :=
| VInt (z : Z)
| VBits (l : list bool)
| VBytes (s : bytes)
| VNone.

Definition call (o : op) : M D.t value :=
  match o with
  | Decode t => x <- decode t ;; ret (VInt x)
  | DecodeBits => x <- D.decode_bits ;; ret (VBits x)
  | DecodeString size => x <- D.decode_string size ;; ret (VBytes x)
  | SkipBytes n => D.skip_bytes n ;; ret VNone
  | Reset => D.reset ;; ret VNone
  end.

(** The decoder after the call, whether it returned or raised. *)
Definition step (d : D.t) (o : op) : D.t := exec (call o) d.

(** The types wider than one byte-order-packed field go through
    [_pack_words] and [_unpack_words]. *)
Definition uses_words (t : numtype) : bool :=
  match t with
  | U8 | I8 | U16 | I16 => false
  | _ => true
  end.

(** The word list as [_pack_words] and [_unpack_words] order it. *)
Definition reorder {A} (wo : Endian) (l : list A) : list A :=
  if Endian_eqb wo Little then rev l else l.

(** The fresh builder of a configuration. *)
Definition fresh (bo wo : Endian) (repack : bool) : B.t :=
  B.__init__ None bo wo repack.

(** The decoder once its cursor has moved by [n]. *)
Definition advanced (d : D.t) (n : Z) : D.t :=
  D.mk (D._payload d) (D._pointer d + n) (D._byteorder d) (D._wordorder d).

(** The slice a decode of [n] bytes takes, the cursor having moved already. *)
Definition handle_of (d : D.t) (n : Z) : bytes :=
  py_slice (D._payload d) (D._pointer d + n - n) (D._pointer d + n).

(** The bytes between the cursor and the end of the buffer. *)
Definition remaining (d : D.t) : Z := len (D._payload d) - D._pointer d.

(** The byte count an operation moves the cursor by. *)
Definition op_width (o : op) : Z :=
  match o with
  | Decode t => width t
  | DecodeBits => 1
  | DecodeString size => size
  | SkipBytes n => n
  | Reset => 0
  end.

(** An operation that is no rewind and whose byte count is a count. *)
Definition forward (o : op) : Prop :=
  match o with
  | Reset => False
  | _ => 0 <= op_width o
  end.

(** [decode_bits], [n] times; the results in order, concatenated. *)
Fixpoint decode_bits_n (n : nat) : M D.t (list bool) :=
  match n with
  | O => ret []
  | S n' => x <- D.decode_bits ;; xs <- decode_bits_n n' ;; ret (x ++ xs)
  end.

(** [bits], padded on the left with [false] to the next multiple of 8. *)
Definition left_padded (bits : list bool) : list bool :=
  repeat false (Z.to_nat ((- len bits) mod 8)) ++ bits.

(** A buffer cut in 2-byte chunks, a last odd byte completed by a zero byte. *)
Fixpoint pairs (s : bytes) : list bytes :=
  match s with
  | [] => []
  | [a] => [[a; Byte.x00]]
  | a :: b :: rest => [a; b] :: pairs rest
  end.

(** A materialize call that returns a value, leaves the builder as it was,
    and returns the same value when called again. *)
Definition pure_read {A} (m : M B.t A) (b : B.t) : Prop :=
  exists v, m b = (Ret v, b) /\
            (x <- m ;; y <- m ;; ret (x, y)) b = (Ret (v, v), b).

Definition is_list (x : pyobj) : bool :=
  match x with PyList _ => true | _ => false end.

(** An ordered sequence in Python's sense: a list, a tuple or a byte string. *)
Definition is_sequence (x : pyobj) : bool :=
  match x with
  | PyList _ | PyTuple _ | PyBytes _ => true
  | _ => false
  end.

Definition u16 (z : Z) : Prop := 0 <= z < 65536.

(** ** Notions the statements and proofs use *)

Definition len2 (ch : bytes) : Prop := length ch = 2%nat.

Definition len8 (g : list bool) : Prop := length g = 8%nat.

(** A big-endian short written in byte order [o]. *)
Definition swap (o : Endian) (ch : bytes) : bytes :=
  match o with Big => ch | Little => rev ch end.

(** The bits of a byte string, each byte most significant bit first. *)
Definition bits_of_bytes (s : bytes) : list bool := flat_map msb_bits_of_byte s.

(** The byte order [to_registers] reads each chunk in. *)
Definition register_order (b : B.t) : Endian :=
  if B._repack b then B._byteorder b else Big.

(** A computation that leaves the object as it found it. *)
Definition read_only {S A} (m : M S A) : Prop := forall s, snd (m s) = s.

(** What both [_pack_words] and [_unpack_words] do to a buffer of whole
    big-endian words: the 2-byte words reordered, each written in the byte
    order. *)
Definition shuffle (bo wo : Endian) (s : bytes) : bytes :=
  concat (map (swap bo) (reorder wo (pairs s))).

(** The body the two methods share, after the value has become a buffer. *)
Definition words_body (bo wo : Endian) (k : Z) (s : bytes) : result bytes :=
  rbind (struct.unpack_nH k s) (fun ws =>
  rbind (mapM (struct.pack bo struct.c_H) (reorder wo ws)) (fun l => Ret (concat l))).

(** The fragment an [add] call appends. *)
Definition encoded (t : numtype) (bo wo : Endian) (x : Z) : bytes :=
  if uses_words t
  then shuffle bo wo (struct.be_split (struct.calcsize (code_of t)) x)
  else struct.to_order bo (struct.calcsize (code_of t)) x.

(** A list of bits cut in groups of eight (an incomplete last group is left out). *)
Fixpoint octets (l : list bool) : list (list bool) :=
  match l with
  | b7 :: b6 :: b5 :: b4 :: b3 :: b2 :: b1 :: b0 :: rest =>
      [b7; b6; b5; b4; b3; b2; b1; b0] :: octets rest
  | _ => []
  end.

(** The builder that holds one fragment [s] and does not repack. *)
Definition holding (s : bytes) (bo wo : Endian) : B.t :=
  B.__init__ (Some [s]) bo wo false.

(** ** Records: a sequence of fields written, then read in the same order *)

(** A field of a record: a number of a numeric type, or a string. *)
Inductive field :=
| FNum (t : numtype) (x : Z)
| FStr (s : bytes).

(** The encode call of a field. *)
Definition add_field (f : field) : M B.t unit :=
  match f with
  | FNum t x => add t x
  | FStr s => B.add_string s
  end.

(** The decode call that matches a field. *)
Definition decode_field (f : field) : M D.t value :=
  match f with
  | FNum t _ => call (Decode t)
  | FStr s => call (DecodeString (len s))
  end.

Definition field_value (f : field) : value :=
  match f with
  | FNum _ x => VInt x
  | FStr s => VBytes s
  end.

(** A field the encoder accepts. *)
Definition field_ok (f : field) : Prop :=
  match f with
  | FNum t x => representable t x = true
  | FStr _ => True
  end.

(** The fragment a field becomes. *)
Definition field_bytes (bo wo : Endian) (f : field) : bytes :=
  match f with
  | FNum t x => encoded t bo wo x
  | FStr s => s
  end.

Fixpoint add_all (fs : list field) : M B.t unit :=
  match fs with
  | [] => ret tt
  | f :: fs' => add_field f ;; add_all fs'
  end.

Fixpoint decode_all (fs : list field) : M D.t (list value) :=
  match fs with
  | [] => ret []
  | f :: fs' => v <- decode_field f ;; vs <- decode_all fs' ;; ret (v :: vs)
  end.

(** What each call of a sequence returns or raises, in order. *)
Fixpoint outcomes (ops : list op) (d : D.t) : list (result value) :=
  match ops with
  | [] => []
  | o :: ops' => run (call o) d :: outcomes ops' (step d o)
  end.

(** A register with its two bytes exchanged. *)
Definition swap16 (r : Z) : Z := struct.be_combine (rev (struct.be_split 2 r)).

(** The 16 bits of a register, most significant first. *)
Definition bits16 (r : Z) : list bool :=
  map (fun j => Z.testbit r j) [15; 14; 13; 12; 11; 10; 9; 8; 7; 6; 5; 4; 3; 2; 1; 0].

(** An element [pack("!H", x)] accepts: an integer from 0 to 65535, or a
    boolean. *)
Definition is_u16_obj (x : pyobj) : bool :=
  match x with
  | PyInt z => (0 <=? z) && (z <? 65536)
  | PyBool _ => true
  | _ => false
  end.

(** The value a decode call reads from the bytes it takes. *)
Definition decoded (t : numtype) (bo wo : Endian) (h : bytes) : Z :=
  if uses_words t
  then struct.interp (code_of t) (struct.be_combine (shuffle bo wo h))
  else struct.interp (code_of t) (struct.of_order bo h).

(** Whether a call raised. *)
Definition is_raise {A} (r : result A) : bool :=
  match r with Ret _ => false | Raise _ => true end.

(** The integer types, as opposed to the floats. *)
Definition is_integer (t : numtype) : bool :=
  match t with
  | F16 | F32 | F64 => false
  | _ => true
  end.

(** ** Concrete runs *)

Example build_odd :
  run (B.add_8bit_uint 1 ;; B.add_16bit_uint 2 ;; B.build)
      (B.__init__ None Little Big false)
  = Ret [[Byte.x01; Byte.x02]; [Byte.x00; Byte.x00]].
Proof. vm_compute. reflexivity. Qed.

Example roundtrip_i64_little_little :
  rbind (run (B.add_64bit_int (-2) ;; B.to_string) (B.__init__ None Little Little false))
        (fun s => run D.decode_64bit_int (D.__init__ s Little Little))
  = Ret (-2).
Proof. vm_compute. reflexivity. Qed.

Example coils_of_bits :
  run (B.add_bits [true; false; true] ;; B.to_coils) (B.__init__ None Little Big false)
  = Ret [true; false; true; false; false; false; false; false;
         false; false; false; false; false; false; false; false].
Proof. vm_compute. reflexivity. Qed.

Example decode_short_buffer :
  run D.decode_16bit_uint (D.__init__ [Byte.x01] Little Big) = Raise struct_error.
Proof. vm_compute. reflexivity. Qed.

(** ** Slices and chunks *)

Section Slices.
Context {A : Type}.
Implicit Types l g rest : list A.

Lemma len_app l1 l2 : len (l1 ++ l2) = len l1 + len l2.
Proof. unfold len. rewrite length_app. lia. Qed.

Lemma len_nonneg l : 0 <= len l.
Proof. unfold len. lia. Qed.

Lemma py_slice_from (l : list A) (i j : Z) :
  0 <= i -> 0 <= j ->
  py_slice l i j = firstn (Z.to_nat (Z.min j (len l) - Z.min i (len l)))
                          (skipn (Z.to_nat (Z.min i (len l))) l).
Proof.
  intros Hi Hj. unfold py_slice, py_index.
  destruct (Z.ltb_spec i 0); [lia|]. destruct (Z.ltb_spec j 0); [lia|].
  reflexivity.
Qed.

Lemma py_slice_all l : py_slice l 0 (len l) = l.
Proof.
  rewrite py_slice_from by (pose proof (len_nonneg l); lia).
  pose proof (len_nonneg l).
  rewrite Z.min_id. rewrite Z.min_l by lia. rewrite Z.sub_0_r. simpl.
  unfold len. rewrite Nat2Z.id. apply firstn_all.
Qed.

Lemma py_slice_app_shift g rest i k :
  0 <= i -> 0 <= k ->
  py_slice (g ++ rest) (len g + i) (len g + i + k) = py_slice rest i (i + k).
Proof.
  intros Hi Hk. pose proof (len_nonneg g). pose proof (len_nonneg rest).
  rewrite !py_slice_from by lia. rewrite len_app.
  replace (Z.min (len g + i + k) (len g + len rest)
           - Z.min (len g + i) (len g + len rest))
    with (Z.min (i + k) (len rest) - Z.min i (len rest)) by lia.
  f_equal.
  replace (Z.to_nat (Z.min (len g + i) (len g + len rest)))
    with (length g + Z.to_nat (Z.min i (len rest)))%nat by (unfold len in *; lia).
  rewrite skipn_app, skipn_all2 by lia.
  replace (length g + Z.to_nat (Z.min i (len rest)) - length g)%nat
    with (Z.to_nat (Z.min i (len rest))) by lia.
  reflexivity.
Qed.

Lemma py_slice_head g rest :
  py_slice (g ++ rest) 0 (len g) = g.
Proof.
  pose proof (len_nonneg g). pose proof (len_nonneg rest).
  rewrite py_slice_from by lia. rewrite len_app.
  rewrite Z.min_l by lia. rewrite (Z.min_l 0) by lia.
  rewrite Z.sub_0_r. simpl. unfold len. rewrite Nat2Z.id.
  rewrite firstn_app, firstn_all, Nat.sub_diag. simpl. apply app_nil_r.
Qed.

(** The comprehension [[l[i : i + k] for i in range(0, n, k)]], one step. *)
Lemma slices_cons g rest (n k : Z) :
  len g = k -> 0 < k -> 0 < n ->
  map (fun i => py_slice (g ++ rest) i (i + k)) (py_range0 n k)
  = g :: map (fun i => py_slice rest i (i + k)) (py_range0 (n - k) k).
Proof.
  intros Hg Hk Hn. subst k. unfold py_range0.
  set (k := len g) in *.
  replace (n + k - 1) with ((n - k + k - 1) + 1 * k) by lia.
  rewrite Z.div_add by lia.
  assert (0 <= (n - k + k - 1) / k) by (apply Z.div_pos; lia).
  rewrite Z2Nat.inj_add by lia.
  replace (Z.to_nat 1) with 1%nat by reflexivity.
  rewrite Nat.add_comm. cbn [Nat.add seq map].
  f_equal.
  - rewrite Z.mul_0_l, Z.add_0_l. apply py_slice_head.
  - rewrite <- seq_shift, !map_map. apply map_ext. intros j.
    replace (Z.of_nat (S j) * k) with (len g + Z.of_nat j * k) by lia.
    apply py_slice_app_shift; nia.
Qed.

Lemma slices_nil l (n k : Z) :
  0 < k -> n <= 0 ->
  map (fun i => py_slice l i (i + k)) (py_range0 n k) = [].
Proof.
  intros Hk Hn. unfold py_range0.
  assert ((n + k - 1) / k <= 0).
  { assert ((n + k - 1) / k < 1); [|lia].
    apply Z.div_lt_upper_bound; lia. }
  replace (Z.to_nat ((n + k - 1) / k)) with 0%nat by lia. reflexivity.
Qed.

Lemma py_chunks_nil (k : Z) : 0 < k -> py_chunks (@nil A) k = [].
Proof. intros. apply slices_nil; [assumption|reflexivity]. Qed.

Lemma py_chunks_cons g rest (k : Z) :
  len g = k -> 0 < k -> py_chunks (g ++ rest) k = g :: py_chunks rest k.
Proof.
  intros Hg Hk. unfold py_chunks. rewrite len_app.
  pose proof (len_nonneg rest).
  rewrite (@slices_cons g rest (len g + len rest) k Hg Hk) by lia.
  replace (len g + len rest - k) with (len rest) by lia. reflexivity.
Qed.

Lemma py_chunks_concat (gs : list (list A)) (k : Z) :
  0 < k -> Forall (fun g => len g = k) gs -> py_chunks (concat gs) k = gs.
Proof.
  intros Hk H. induction H as [|g gs Hg _ IH]; simpl.
  - apply py_chunks_nil; assumption.
  - rewrite py_chunks_cons, IH by assumption. reflexivity.
Qed.

End Slices.

(** ** Monad steps *)

Lemma bind_ret_run {S A B} (m : M S A) (k : A -> M S B) s a s' :
  m s = (Ret a, s') -> bind m k s = k a s'.
Proof. intros H. unfold bind. rewrite H. reflexivity. Qed.

Lemma mapM_ret {A B} (f : A -> result B) (g : A -> B) (l : list A) :
  Forall (fun x => f x = Ret (g x)) l -> mapM f l = Ret (map g l).
Proof.
  induction 1 as [|x l Hx _ IH]; simpl; [reflexivity|].
  rewrite Hx, IH. reflexivity.
Qed.

Lemma list_pair_ind {A} (P : list A -> Prop) :
  P [] -> (forall a, P [a]) -> (forall a b l, P l -> P (a :: b :: l)) ->
  forall l, P l.
Proof.
  intros H0 H1 H2 l.
  enough (P l /\ forall a, P (a :: l)) by tauto.
  induction l as [|x l [IH1 IH2]]; split; auto.
Qed.

(** ** Chunks of two bytes *)

Lemma pairs_len2 s : Forall len2 (pairs s).
Proof.
  induction s as [|a|a b l IH] using list_pair_ind; simpl; repeat constructor.
  assumption.
Qed.

Lemma pairs_length s : len (pairs s) = (len s + 1) / 2.
Proof.
  induction s as [|a|a b l IH] using list_pair_ind; try reflexivity.
  unfold len in *. cbn [pairs length]. rewrite !Nat2Z.inj_succ, IH.
  replace (Z.succ (Z.succ (Z.of_nat (length l))) + 1)
    with (Z.of_nat (length l) + 1 + 1 * 2) by lia.
  rewrite Z.div_add by lia. lia.
Qed.

Lemma pairs_concat s :
  concat (pairs s) = s ++ repeat Byte.x00 (Z.to_nat (len s mod 2)).
Proof.
  induction s as [|a|a b l IH] using list_pair_ind; try reflexivity.
  cbn [pairs concat app]. rewrite IH. do 3 f_equal.
  unfold len. cbn [length]. rewrite !Nat2Z.inj_succ.
  replace (Z.succ (Z.succ (Z.of_nat (length l))))
    with (Z.of_nat (length l) + 1 * 2) by lia.
  rewrite Z.mod_add by lia. reflexivity.
Qed.

Lemma pairs_last_odd s :
  len s mod 2 = 1 -> exists c, last (pairs s) [] = [c; Byte.x00] /\ last s c = c.
Proof.
  induction s as [|a|a b l IH] using list_pair_ind; intros Hodd.
  - discriminate.
  - exists a. split; reflexivity.
  - assert (Hl : len l mod 2 = 1).
    { unfold len in *. cbn [length] in Hodd. rewrite !Nat2Z.inj_succ in Hodd.
      replace (Z.succ (Z.succ (Z.of_nat (length l))))
        with (Z.of_nat (length l) + 1 * 2) in Hodd by lia.
      rewrite Z.mod_add in Hodd by lia. exact Hodd. }
    destruct (IH Hl) as [c [Hc Hs]]. exists c.
    destruct l as [|x l']; [discriminate|].
    split.
    + change (pairs (a :: b :: x :: l')) with ([a; b] :: pairs (x :: l')).
      destruct (pairs (x :: l')) eqn:E.
      * destruct l' as [|y l'']; discriminate.
      * exact Hc.
    + cbn [last]. exact Hs.
Qed.

(** The comprehension of [build] cuts the buffer in pairs. *)
Lemma build_slices s :
  map (fun i => py_slice (s ++ repeat Byte.x00 (Z.to_nat (len s mod 2))) i (i + 2))
      (py_range0 (len s) 2)
  = pairs s.
Proof.
  induction s as [|a|a b l IH] using list_pair_ind; try reflexivity.
  assert (Hlen : len (a :: b :: l) = len l + 2).
  { unfold len. cbn [length]. lia. }
  rewrite Hlen.
  replace ((len l + 2) mod 2) with (len l mod 2)
    by (replace (len l + 2) with (len l + 1 * 2) by lia;
        rewrite Z.mod_add by lia; reflexivity).
  change ((a :: b :: l) ++ ?p) with ([a; b] ++ (l ++ p)).
  pose proof (len_nonneg l).
  rewrite slices_cons by (try reflexivity; lia).
  cbn [pairs]. f_equal.
  replace (len l + 2 - 2) with (len l) by lia. exact IH.
Qed.

Section BuilderFacts.
Variable b : B.t.
Let s := concat (B._payload b).

Lemma to_string_run : B.to_string b = (Ret s, b).
Proof. reflexivity. Qed.

Lemma build_run : B.build b = (Ret (pairs s), b).
Proof.
  unfold B.build. rewrite (bind_ret_run _ _ _ to_string_run).
  unfold ret. rewrite build_slices. reflexivity.
Qed.
End BuilderFacts.

(** ** struct: packing and unpacking are inverse *)

Section StructFacts.
Import struct.

Lemma length_to_order o n v : length (to_order o n v) = n.
Proof.
  destruct o; unfold to_order, be_split;
    rewrite ?length_rev; apply length_le_split.
Qed.

Lemma of_order_to_order o n v :
  of_order o (to_order o n v) = v mod 2 ^ (Z.of_nat n * 8).
Proof.
  destruct o; unfold of_order, to_order, be_combine, be_split;
    rewrite ?rev_involutive; apply le_combine_split.
Qed.

Lemma to_order_of_order o (s : bytes) :
  to_order o (length s) (of_order o s) = s.
Proof.
  destruct o; unfold of_order, to_order, be_combine, be_split.
  - rewrite <- (length_rev s), split_le_combine. apply rev_involutive.
  - apply split_le_combine.
Qed.

Lemma of_order_bound o (s : bytes) :
  0 <= of_order o s < 2 ^ (8 * len s).
Proof.
  destruct o; unfold of_order, be_combine, len.
  - rewrite <- (length_rev s). apply le_combine_bound.
  - apply le_combine_bound.
Qed.

Lemma interp_wrap c v :
  in_range c v = true -> interp c (v mod 2 ^ (Z.of_nat (calcsize c) * 8)) = v.
Proof.
  unfold in_range, interp, bits.
  destruct c; cbn [kind_of calcsize]; intros H;
    apply andb_true_iff in H; destruct H as [Hlo Hhi];
    apply Z.leb_le in Hlo; apply Z.ltb_lt in Hhi;
    cbn in Hlo, Hhi |- *;
    try (apply Z.mod_small; lia);
    (destruct (Z.ltb_spec v 0) as [Hneg|Hpos];
     [ match goal with
       | |- context [v mod ?m] =>
           replace (v mod m) with (v + m)
             by (rewrite <- (Z_mod_plus_full v 1 m), Z.mod_small; lia)
       end
     | rewrite Z.mod_small by lia ];
     match goal with
     | |- context [?x <? ?y] => destruct (Z.ltb_spec x y); lia
     end).
Qed.

(** A 2-byte chunk read as an unsigned short. *)
Lemma unpack_H o (ch : bytes) :
  len2 ch -> unpack o c_H ch = Ret (of_order o ch).
Proof. unfold len2, unpack. intros ->. reflexivity. Qed.

Lemma of_order_u16 o (ch : bytes) : len2 ch -> u16 (of_order o ch).
Proof.
  intros H. pose proof (of_order_bound o ch) as Hb.
  unfold len in Hb. rewrite H in Hb. exact Hb.
Qed.

Lemma in_range_H v : u16 v -> in_range c_H v = true.
Proof.
  unfold u16, in_range. cbn. intros [? ?].
  apply andb_true_iff. split; [apply Z.leb_le|apply Z.ltb_lt]; lia.
Qed.

(** An unsigned short written back in the order it was read in. *)
Lemma pack_H_of_order o (ch : bytes) :
  len2 ch -> pack o c_H (of_order o ch) = Ret ch.
Proof.
  intros H. unfold pack. rewrite in_range_H by (apply of_order_u16; exact H).
  cbn [calcsize]. rewrite <- H, to_order_of_order. reflexivity.
Qed.

Lemma swap_involutive o ch : swap o (swap o ch) = ch.
Proof. destruct o; simpl; [reflexivity|apply rev_involutive]. Qed.

Lemma swap_len2 o ch : len2 ch -> len2 (swap o ch).
Proof. destruct o; unfold len2; simpl; rewrite ?length_rev; auto. Qed.

Lemma of_order_swap o ch : of_order o ch = be_combine (swap o ch).
Proof.
  destruct o; unfold of_order, be_combine, swap;
    rewrite ?rev_involutive; reflexivity.
Qed.

Lemma pack_H_be o (ch : bytes) :
  len2 ch -> pack o c_H (be_combine ch) = Ret (swap o ch).
Proof.
  intros H. rewrite <- (swap_involutive o ch) at 1.
  rewrite <- of_order_swap. apply pack_H_of_order, swap_len2, H.
Qed.

Lemma be_split2_combine (ch : bytes) :
  len2 ch -> be_split 2 (be_combine ch) = ch.
Proof.
  unfold len2. intros H. rewrite <- H. apply (to_order_of_order Big).
Qed.

Lemma shorts_concat (L : list bytes) :
  Forall len2 L -> shorts (length L) (concat L) = map be_combine L.
Proof.
  induction 1 as [|ch L Hch _ IH]; [reflexivity|].
  destruct ch as [|x [|y [|z ch]]]; try discriminate Hch.
  cbn [length shorts concat map app firstn skipn].
  rewrite IH. reflexivity.
Qed.

End StructFacts.

(** ** Registers and coils of a builder *)

Lemma testbit_byte_high (x : byte) k : 8 <= k -> Z.testbit (byte.unsigned x) k = false.
Proof.
  intros H. rewrite <- byte.wrap_unsigned. unfold byte.wrap.
  apply Z.mod_pow2_bits_high. lia.
Qed.

Lemma be_combine_pair (x y : byte) :
  struct.be_combine [x; y] = Z.lor (byte.unsigned y) (Z.shiftl (byte.unsigned x) 8).
Proof.
  unfold struct.be_combine. cbn [rev app].
  change (le_combine [y; x])
    with (Z.lor (byte.unsigned y)
                (Z.shiftl (Z.lor (byte.unsigned x) (Z.shiftl 0 8)) 8)).
  rewrite Z.shiftl_0_l, Z.lor_0_r. reflexivity.
Qed.

Lemma testbit_pair_low (x y : byte) k :
  0 <= k < 8 -> Z.testbit (struct.be_combine [x; y]) k = Z.testbit (byte.unsigned y) k.
Proof.
  intros H. rewrite be_combine_pair, Z.lor_spec, Z.shiftl_spec by lia.
  rewrite (Z.testbit_neg_r _ (k - 8)) by lia. apply orb_false_r.
Qed.

Lemma testbit_pair_high (x y : byte) k :
  8 <= k -> Z.testbit (struct.be_combine [x; y]) k = Z.testbit (byte.unsigned x) (k - 8).
Proof.
  intros H. rewrite be_combine_pair, Z.lor_spec, Z.shiftl_spec by lia.
  rewrite testbit_byte_high by lia. reflexivity.
Qed.

Lemma format_016b_be (ch : bytes) :
  len2 ch -> format_016b (struct.be_combine ch) = Ret (bits_of_bytes ch).
Proof.
  intros H. pose proof (of_order_u16 Big H) as Hu. cbn [struct.of_order] in Hu.
  destruct ch as [|x [|y [|z ch]]]; try discriminate H. clear H.
  unfold format_016b, u16 in *.
  destruct (Z.ltb_spec (struct.be_combine [x; y]) 0) as [Hneg|_]; [lia|].
  assert (Hn : Nat.max 16 (Z.to_nat (Z.log2 (struct.be_combine [x; y]) + 1)) = 16%nat).
  { apply Nat.max_l.
    destruct (Z.eq_dec (struct.be_combine [x; y]) 0) as [E|E].
    - rewrite E. cbn. lia.
    - assert (Z.log2 (struct.be_combine [x; y]) < 16)
        by (apply Z.log2_lt_pow2; lia).
      pose proof (Z.log2_nonneg (struct.be_combine [x; y])). lia. }
  rewrite Hn. f_equal.
  change (rev (seq 0 16))
    with [15; 14; 13; 12; 11; 10; 9; 8; 7; 6; 5; 4; 3; 2; 1; 0]%nat.
  unfold bits_of_bytes, msb_bits_of_byte. cbn [flat_map map app].
  repeat (apply (f_equal2 (@cons bool));
          [ first [ rewrite testbit_pair_high by (cbn; lia); reflexivity
                  | rewrite testbit_pair_low by (cbn; lia); reflexivity ] | ]).
  reflexivity.
Qed.

Section BuilderRegisters.
Import struct.
Variable b : B.t.
Let s := concat (B._payload b).

Lemma to_registers_run :
  B.to_registers b = (Ret (map (of_order (register_order b)) (pairs s)), b).
Proof.
  unfold B.to_registers, register_order.
  cbv beta delta [bind get]. cbv iota beta. rewrite build_run. cbv iota beta.
  fold s. unfold lift.
  destruct (B._repack b);
    [ rewrite (mapM_ret _ (of_order (B._byteorder b)))
    | rewrite (mapM_ret _ (of_order Big)) ];
    try reflexivity;
    (eapply Forall_impl; [|apply pairs_len2]); intros ch; apply unpack_H.
Qed.

Lemma to_coils_run :
  B.to_coils b
  = (Ret (concat (map (fun ch => bits_of_bytes (swap (register_order b) ch)) (pairs s))), b).
Proof.
  unfold B.to_coils. rewrite (bind_ret_run _ _ _ to_registers_run).
  unfold lift, bind, ret.
  rewrite (mapM_ret _ (fun r => bits_of_bytes (be_split 2 r))).
  - rewrite map_map. do 3 f_equal. apply map_ext_in. intros ch Hin.
    assert (Hch : len2 ch).
    { pose proof (pairs_len2 s) as F. rewrite Forall_forall in F. auto. }
    rewrite of_order_swap, be_split2_combine by (apply swap_len2, Hch).
    reflexivity.
  - apply Forall_map. eapply Forall_impl; [|apply pairs_len2].
    intros ch Hch. rewrite of_order_swap.
    rewrite format_016b_be, be_split2_combine by (apply swap_len2, Hch).
    reflexivity.
Qed.
End BuilderRegisters.

(** ** The builder: worked vector, padding, materialize operations *)

(** C2: encoding the unsigned 32-bit value 1 with byte order little and word
    order big and reading the builder with [to_registers] (repack off) gives
    exactly the two registers 0x0000 and 0x0100. *)
Theorem worked_vector_u32 :
  run (B.add_32bit_uint 1 ;; B.to_registers) (B.__init__ None Little Big false)
  = Ret [0x0000; 0x0100].
Proof. vm_compute. reflexivity. Qed.

(** C5: whatever fragments the encode calls have accumulated, when their total
    length is odd [build] returns ceil(total / 2) chunks of two bytes each, and
    the second byte of the last chunk is zero (its first byte being the last
    byte of the buffer). *)
Theorem build_pads_odd_length (b : B.t) :
  len (concat (B._payload b)) mod 2 = 1 ->
  exists chunks c,
    run B.build b = Ret chunks /\
    len chunks = (len (concat (B._payload b)) + 1) / 2 /\
    Forall (fun ch => len ch = 2) chunks /\
    last chunks [] = [c; Byte.x00] /\
    last (concat (B._payload b)) c = c.
Proof.
  intros Hodd. destruct (pairs_last_odd _ Hodd) as [c [Hc Hs]].
  exists (pairs (concat (B._payload b))), c.
  unfold run. rewrite build_run. cbn [fst].
  repeat split; auto using pairs_length.
  eapply Forall_impl; [|apply pairs_len2].
  intros ch H. unfold len. rewrite H. reflexivity.
Qed.

Lemma build_pads_odd_length_witness :
  len (concat (B._payload (B.mk [[Byte.x01; Byte.x02]; [Byte.x03]] Little Big false))) mod 2 = 1 /\
  exists chunks c,
    run B.build (B.mk [[Byte.x01; Byte.x02]; [Byte.x03]] Little Big false) = Ret chunks /\
    len chunks = (len (concat (B._payload (B.mk [[Byte.x01; Byte.x02]; [Byte.x03]] Little Big false))) + 1) / 2 /\
    Forall (fun ch => len ch = 2) chunks /\
    last chunks [] = [c; Byte.x00] /\
    last (concat (B._payload (B.mk [[Byte.x01; Byte.x02]; [Byte.x03]] Little Big false))) c = c.
Proof.
  split; [reflexivity|].
  apply (build_pads_odd_length (B.mk [[Byte.x01; Byte.x02]; [Byte.x03]] Little Big false)).
  reflexivity.
Defined.

Lemma pure_read_intro {A} (m : M B.t A) (b : B.t) (v : A) :
  m b = (Ret v, b) -> pure_read m b.
Proof.
  intros H. exists v. split; [exact H|].
  unfold bind. rewrite H, H. reflexivity.
Qed.

(** C9: [to_string], [build], [to_registers] and [to_coils] return a value
    and leave the builder, its fragment list included, exactly as it was;
    a second call returns what the first returned. *)
Theorem materialize_pure (b : B.t) :
  pure_read B.to_string b /\ pure_read B.build b /\
  pure_read B.to_registers b /\ pure_read B.to_coils b.
Proof.
  repeat split; eapply pure_read_intro.
  - apply to_string_run.
  - apply build_run.
  - apply to_registers_run.
  - apply to_coils_run.
Qed.

(** ** The factories *)

Lemma mapM_raise {A B} (f : A -> result B) (e0 : exn) (l : list A) e :
  (forall x e', f x = Raise e' -> e' = e0) -> mapM f l = Raise e -> e = e0.
Proof.
  intros Hf. induction l as [|x l IH]; simpl; [discriminate|].
  destruct (f x) eqn:Ex; simpl.
  - destruct (mapM f l); simpl; [discriminate|].
    intros H. apply IH. congruence.
  - intros H. apply (Hf x). congruence.
Qed.

Lemma pack_obj_raise o c x e : struct.pack_obj o c x = Raise e -> e = struct_error.
Proof.
  destruct x; simpl; unfold struct.pack;
    repeat match goal with |- context [if ?t then _ else _] => destruct t end;
    congruence.
Qed.

Lemma fromRegisters_u16 (regs : list Z) bo wo :
  Forall u16 regs ->
  D.fromRegisters (PyList (map PyInt regs)) bo wo
  = Ret (D.__init__ (concat (map (struct.be_split 2) regs)) bo wo).
Proof.
  intros H. unfold D.fromRegisters.
  rewrite (mapM_ret _ (fun x => match x with
                                | PyInt z => struct.be_split 2 z
                                | _ => []
                                end)).
  - simpl. rewrite map_map. reflexivity.
  - apply Forall_map. eapply Forall_impl; [|exact H].
    intros z Hz. simpl. unfold struct.pack. rewrite in_range_H by exact Hz.
    reflexivity.
Qed.

(** C6, as the code has it: [fromRegisters] raises ParameterException
    exactly when its argument is not a list (another ordered sequence, a
    tuple or a byte string, is refused like a single integer), and returns a
    decoder for every list of unsigned 16-bit integers; [fromCoils] raises
    ParameterException exactly when its argument is not a list, and returns
    a decoder for every list of booleans.  A single integer is refused by
    both. *)
Theorem factories_validate_input
    (x : pyobj) (regs : list Z) (coils : list bool) (z : Z) (bo wo : Endian) :
  Forall u16 regs ->
  (D.fromRegisters x bo wo = Raise ParameterException <-> is_list x = false) /\
  (exists d, D.fromRegisters (PyList (map PyInt regs)) bo wo = Ret d) /\
  (D.fromCoils x bo wo = Raise ParameterException <-> is_list x = false) /\
  (exists d, D.fromCoils (PyList (map PyBool coils)) bo wo = Ret d) /\
  D.fromRegisters (PyInt z) bo wo = Raise ParameterException /\
  D.fromCoils (PyInt z) bo wo = Raise ParameterException.
Proof.
  intros Hregs. repeat split.
  - destruct x; try reflexivity. unfold D.fromRegisters.
    destruct (mapM _ l) eqn:E; simpl; [discriminate|].
    intros H. apply mapM_raise with (e0 := struct_error) in E.
    + congruence.
    + intros y e'. apply pack_obj_raise.
  - destruct x; try reflexivity. discriminate.
  - eexists. apply fromRegisters_u16, Hregs.
  - destruct x; try reflexivity. discriminate.
  - destruct x; try reflexivity. discriminate.
  - eexists. reflexivity.
Qed.

Lemma factories_validate_input_witness :
  Forall u16 [0; 256; 65535] /\
  (D.fromRegisters (PyInt 7) Little Big = Raise ParameterException
   <-> is_list (PyInt 7) = false) /\
  (exists d, D.fromRegisters (PyList (map PyInt [0; 256; 65535])) Little Big = Ret d) /\
  (D.fromCoils (PyInt 7) Little Big = Raise ParameterException
   <-> is_list (PyInt 7) = false) /\
  (exists d, D.fromCoils (PyList (map PyBool [true; false])) Little Big = Ret d) /\
  D.fromRegisters (PyInt 7) Little Big = Raise ParameterException /\
  D.fromCoils (PyInt 7) Little Big = Raise ParameterException.
Proof.
  assert (H : Forall u16 [0; 256; 65535])
    by (repeat constructor; unfold u16; lia).
  split; [exact H|].
  apply (factories_validate_input (PyInt 7) [true; false] 7 Little Big H).
Defined.

(** C6 as stated fails: a tuple of unsigned 16-bit integers and a byte
    string are ordered sequences, and [fromRegisters] refuses them with
    ParameterException; [fromCoils] refuses a tuple of booleans alike.  So
    the error is not raised exactly on what is no ordered sequence, and not
    every ordered sequence gives a decoder. *)
Lemma factories_refuse_other_sequences :
  is_sequence (PyTuple [PyInt 1; PyInt 2]) = true /\
  D.fromRegisters (PyTuple [PyInt 1; PyInt 2]) Little Big = Raise ParameterException /\
  is_sequence (PyBytes [Byte.x01; Byte.x02]) = true /\
  D.fromRegisters (PyBytes [Byte.x01; Byte.x02]) Little Big = Raise ParameterException /\
  is_sequence (PyTuple [PyBool true; PyBool false]) = true /\
  D.fromCoils (PyTuple [PyBool true; PyBool false]) Little Big = Raise ParameterException /\
  ~ (forall x bo wo,
       D.fromRegisters x bo wo = Raise ParameterException <-> is_sequence x = false) /\
  ~ (forall x bo wo,
       D.fromCoils x bo wo = Raise ParameterException <-> is_sequence x = false).
Proof.
  repeat split; try reflexivity.
  - intros H.
    destruct (H (PyTuple [PyInt 1; PyInt 2]) Little Big) as [H1 _].
    specialize (H1 eq_refl). discriminate H1.
  - intros H.
    destruct (H (PyTuple [PyBool true; PyBool false]) Little Big) as [H1 _].
    specialize (H1 eq_refl). discriminate H1.
Qed.

(** C10: for every list of booleans and every byte order, [fromCoils] returns
    the same decoder whatever the [wordorder] argument is, and that decoder
    has the default word order, big. *)
Theorem fromCoils_ignores_wordorder (coils : list bool) (bo wo wo' : Endian) :
  exists d,
    D.fromCoils (PyList (map PyBool coils)) bo wo = Ret d /\
    D.fromCoils (PyList (map PyBool coils)) bo wo' = Ret d /\
    D._wordorder d = Big.
Proof. eexists. repeat split. Qed.

(** ** The cursor *)

Lemma read_only_get {S} : read_only (@get S).
Proof. intros s. reflexivity. Qed.

Lemma read_only_ret {S A} (a : A) : read_only (@ret S A a).
Proof. intros s. reflexivity. Qed.

Lemma read_only_lift {S A} (r : result A) : read_only (@lift S A r).
Proof. intros s. reflexivity. Qed.

Lemma read_only_bind {S A B} (m : M S A) (k : A -> M S B) :
  read_only m -> (forall a, read_only (k a)) -> read_only (bind m k).
Proof.
  intros Hm Hk s. unfold bind. specialize (Hm s).
  destruct (m s) as [[a|e] s']; simpl in *; subst; [apply Hk|reflexivity].
Qed.

Ltac read_only :=
  repeat first [ apply read_only_get | apply read_only_ret | apply read_only_lift
               | apply read_only_bind | intro ].

Lemma read_only_unpack_words c h : read_only (D._unpack_words c h).
Proof. unfold D._unpack_words. read_only. Qed.

Lemma exec_advance {A} (n : Z) (m : M D.t A) (d : D.t) :
  read_only m ->
  exec (D.advance n ;; m) d
  = D.mk (D._payload d) (D._pointer d + n) (D._byteorder d) (D._wordorder d).
Proof. intros H. unfold exec, bind, D.advance. apply H. Qed.

Lemma exec_decode t d :
  exec (decode t) d
  = D.mk (D._payload d) (D._pointer d + width t) (D._byteorder d) (D._wordorder d).
Proof.
  destruct t; apply exec_advance; read_only; apply read_only_unpack_words.
Qed.

Lemma exec_bind_ret {S A B} (m : M S A) (f : A -> B) s :
  exec (x <- m ;; ret (f x)) s = exec m s.
Proof. unfold exec, bind, ret. destruct (m s) as [[a|e] s']; reflexivity. Qed.

Lemma step_spec d o :
  step d o
  = D.mk (D._payload d)
         (match o with Reset => 0 | _ => D._pointer d + op_width o end)
         (D._byteorder d) (D._wordorder d).
Proof.
  unfold step, call. destruct o; rewrite exec_bind_ret.
  - apply exec_decode.
  - apply exec_advance. read_only.
  - apply exec_advance. read_only.
  - reflexivity.
  - reflexivity.
Qed.

(** C8, as the code has it: every decode operation moves the cursor by
    exactly the byte width of what it decodes (1 for the 8-bit types and
    [decode_bits], 2 for 16 bits, 4 for 32, 8 for 64, [size] for
    [decode_string], [nbytes] for [skip_bytes], a negative count included)
    and leaves the buffer alone; [reset] puts the cursor at zero and leaves
    the buffer alone; over any sequence of operations that has no [reset]
    and passes no negative count to [decode_string] or [skip_bytes] the
    cursor does not move back. *)
Theorem cursor_advances (d : D.t) (o : op) (ops : list op) :
  Forall forward ops ->
  D._payload (step d o) = D._payload d /\
  D._pointer (step d o)
    = match o with Reset => 0 | _ => D._pointer d + op_width o end /\
  D._pointer d <= D._pointer (fold_left step ops d) /\
  D._payload (fold_left step ops d) = D._payload d.
Proof.
  intros Hops. rewrite step_spec. cbn [D._payload D._pointer].
  repeat split.
  - revert d. induction Hops as [|o' ops' Ho' _ IH]; intros d; simpl; [lia|].
    etransitivity; [|apply IH]. rewrite step_spec. cbn [D._pointer].
    destruct o'; simpl in Ho' |- *; try contradiction; lia.
  - revert d. induction ops as [|o' ops' IH]; intros d; simpl; [reflexivity|].
    inversion Hops; subst. rewrite IH by assumption. rewrite step_spec.
    reflexivity.
Qed.

Lemma cursor_advances_witness :
  Forall forward [Decode U8; DecodeBits; DecodeString 3; SkipBytes 2; Decode F64] /\
  D._payload (step (D.__init__ [Byte.x01; Byte.x02] Little Big) (Decode U32))
    = D._payload (D.__init__ [Byte.x01; Byte.x02] Little Big) /\
  D._pointer (step (D.__init__ [Byte.x01; Byte.x02] Little Big) (Decode U32))
    = D._pointer (D.__init__ [Byte.x01; Byte.x02] Little Big) + op_width (Decode U32) /\
  D._pointer (D.__init__ [Byte.x01; Byte.x02] Little Big)
    <= D._pointer (fold_left step
                     [Decode U8; DecodeBits; DecodeString 3; SkipBytes 2; Decode F64]
                     (D.__init__ [Byte.x01; Byte.x02] Little Big)) /\
  D._payload (fold_left step
                [Decode U8; DecodeBits; DecodeString 3; SkipBytes 2; Decode F64]
                (D.__init__ [Byte.x01; Byte.x02] Little Big))
    = D._payload (D.__init__ [Byte.x01; Byte.x02] Little Big).
Proof.
  assert (H : Forall forward
                [Decode U8; DecodeBits; DecodeString 3; SkipBytes 2; Decode F64])
    by (repeat constructor; simpl; lia).
  split; [exact H|].
  apply (cursor_advances (D.__init__ [Byte.x01; Byte.x02] Little Big) (Decode U32) H).
Defined.

(** C8 as stated fails: with no [reset], [skip_bytes(-1)] and
    [decode_string(-2)] move the cursor back. *)
Lemma negative_count_moves_cursor_back :
  D._pointer (step (D.__init__ [Byte.x01; Byte.x02] Little Big) (SkipBytes (-1)))
    < D._pointer (D.__init__ [Byte.x01; Byte.x02] Little Big) /\
  D._pointer (step (D.mk [Byte.x01; Byte.x02] 2 Little Big) (DecodeString (-2)))
    < D._pointer (D.mk [Byte.x01; Byte.x02] 2 Little Big) /\
  ~ (forall (d : D.t) (ops : list op),
       ~ In Reset ops -> D._pointer d <= D._pointer (fold_left step ops d)).
Proof.
  split; [reflexivity|]. split; [reflexivity|].
  intros H.
  specialize (H (D.__init__ [Byte.x01; Byte.x02] Little Big) [SkipBytes (-1)]).
  assert (Hno : ~ In Reset [SkipBytes (-1)]).
  { intros [E|[]]. discriminate E. }
  specialize (H Hno). vm_compute in H. apply H. reflexivity.
Qed.

(** ** Decoding, unfolded *)

Lemma decode_run t d :
  decode t d
  = (if uses_words t
     then rbind (run (D._unpack_words (code_of t) (handle_of d (width t)))
                     (advanced d (width t)))
                (struct.unpack Big (code_of t))
     else struct.unpack (D._byteorder d) (code_of t) (handle_of d (width t)),
     advanced d (width t)).
Proof.
  destruct t; cbn [uses_words decode code_of width];
    try reflexivity;
    match goal with
    | |- ?m d = _ => unfold m
    end;
    unfold bind, D.advance, get, lift, run, handle_of, advanced;
    cbn [D._payload D._pointer D._byteorder D._wordorder];
    match goal with
    | |- context [D._unpack_words ?c ?h ?d'] =>
        pose proof (read_only_unpack_words c h d') as R;
        destruct (D._unpack_words c h d') as [[a|e] s']
    end; simpl in *; subst; reflexivity.
Qed.

Lemma WC_words_width t :
  uses_words t = true -> WC_words (code_of t) = Ret (width t / 2).
Proof. destruct t; try discriminate; reflexivity. Qed.

Lemma width_calcsize t : width t = Z.of_nat (struct.calcsize (code_of t)).
Proof. destruct t; reflexivity. Qed.

Lemma width_even t : uses_words t = true -> 2 * (width t / 2) = width t.
Proof. destruct t; try discriminate; reflexivity. Qed.

(** A read that starts at or after the cursor [p >= 0] with fewer than [n]
    bytes left takes what is left. *)
Lemma handle_short d n :
  0 <= D._pointer d -> remaining d < n ->
  handle_of d n = skipn (Z.to_nat (D._pointer d)) (D._payload d) /\
  len (handle_of d n) = Z.max 0 (remaining d).
Proof.
  unfold remaining, handle_of. intros Hp Hn. pose proof (len_nonneg (D._payload d)) as HL.
  set (p := D._pointer d) in *. set (l := D._payload d) in *.
  replace (p + n - n) with p by lia.
  rewrite py_slice_from by lia.
  destruct (Z.le_gt_cases p (len l)) as [Hle|Hgt].
  - rewrite (Z.min_l p) by lia. rewrite Z.min_r by lia.
    assert (Hlen : length (skipn (Z.to_nat p) l) = Z.to_nat (len l - p)).
    { rewrite length_skipn. unfold len. lia. }
    rewrite <- Hlen, firstn_all. split; [reflexivity|].
    unfold len at 1. rewrite Hlen. unfold len in *. lia.
  - rewrite (Z.min_r p) by lia. rewrite Z.min_r by lia.
    rewrite Z.sub_diag. cbn [Z.to_nat firstn].
    rewrite skipn_all2 by (unfold len in *; lia).
    split; [reflexivity|]. unfold len in *. cbn [length]. lia.
Qed.

Lemma width_pos t : 0 < width t.
Proof. destruct t; reflexivity. Qed.

Lemma unpack_words_short c k h d :
  WC_words c = Ret k -> len h <> 2 * k ->
  run (D._unpack_words c h) d = Raise struct_error.
Proof.
  intros Hk Hh. unfold run, D._unpack_words, bind, get, lift, make_byte_string.
  rewrite Hk. unfold struct.unpack_nH.
  destruct (Z.eqb_spec (len h) (2 * k)); [contradiction|reflexivity].
Qed.

(** C7, as the code has it: with the cursor [p >= 0] and fewer bytes left than
    the operation's width, [decode_string] returns the bytes that are left (a
    truncated, possibly empty string) and [decode_bits] returns the empty
    list, neither raising; [skip_bytes] returns; every numeric decode
    operation raises struct.error, the cursor having moved all the same. *)
Theorem decode_past_end (d : D.t) (o : op) :
  0 <= D._pointer d -> remaining d < op_width o ->
  run (call o) d
  = match o with
    | Decode _ => Raise struct_error
    | DecodeBits => Ret (VBits [])
    | DecodeString _ => Ret (VBytes (skipn (Z.to_nat (D._pointer d)) (D._payload d)))
    | SkipBytes _ | Reset => Ret VNone
    end
  /\ D._pointer (step d o) = match o with Reset => 0 | _ => D._pointer d + op_width o end.
Proof.
  intros Hp Hrem. split; [|rewrite step_spec; reflexivity].
  destruct (handle_short d Hp Hrem) as [Hh Hlen].
  destruct o as [t| |size|n|]; cbn [op_width] in *; unfold run, call, bind.
  - pose proof (width_pos t). rewrite decode_run. destruct (uses_words t) eqn:W.
    + rewrite unpack_words_short with (k := width t / 2).
      * reflexivity.
      * apply WC_words_width, W.
      * rewrite width_even by exact W. lia.
    + unfold struct.unpack.
      destruct (Nat.eqb_spec (length (handle_of d (width t)))
                             (struct.calcsize (code_of t))) as [E|E].
      * pose proof (width_calcsize t). unfold len in Hlen. lia.
      * reflexivity.
  - unfold D.decode_bits, bind, D.advance, get, ret, make_byte_string.
    cbn [D._payload D._pointer]. fold (handle_of d 1).
    assert (E : handle_of d 1 = []).
    { destruct (handle_of d 1); [reflexivity|].
      unfold len in Hlen. cbn [length] in Hlen. lia. }
    rewrite E. reflexivity.
  - unfold D.decode_string, bind, D.advance, get, ret.
    cbn [D._payload D._pointer]. fold (handle_of d size).
    rewrite Hh. reflexivity.
  - reflexivity.
  - reflexivity.
Qed.

Lemma decode_past_end_witness :
  0 <= D._pointer (D.__init__ [Byte.x01; Byte.x02; Byte.x03] Little Big) /\
  remaining (D.__init__ [Byte.x01; Byte.x02; Byte.x03] Little Big) < op_width (Decode U32) /\
  run (call (Decode U32)) (D.__init__ [Byte.x01; Byte.x02; Byte.x03] Little Big)
    = Raise struct_error /\
  D._pointer (step (D.__init__ [Byte.x01; Byte.x02; Byte.x03] Little Big) (Decode U32))
    = D._pointer (D.__init__ [Byte.x01; Byte.x02; Byte.x03] Little Big) + op_width (Decode U32).
Proof.
  assert (H0 : 0 <= D._pointer (D.__init__ [Byte.x01; Byte.x02; Byte.x03] Little Big))
    by (simpl; lia).
  assert (H1 : remaining (D.__init__ [Byte.x01; Byte.x02; Byte.x03] Little Big)
               < op_width (Decode U32)) by reflexivity.
  split; [exact H0|]. split; [exact H1|].
  apply (decode_past_end (D.__init__ [Byte.x01; Byte.x02; Byte.x03] Little Big)
                         (Decode U32) H0 H1).
Defined.

(** C7 as stated fails: with one byte left, [decode_16bit_uint] does not
    return a truncated value, it raises struct.error. *)
Lemma decode_16bit_uint_past_end_raises :
  remaining (D.__init__ [Byte.x01] Little Big) < width U16 /\
  run D.decode_16bit_uint (D.__init__ [Byte.x01] Little Big) = Raise struct_error /\
  ~ (exists v, run D.decode_16bit_uint (D.__init__ [Byte.x01] Little Big) = Ret v).
Proof.
  split; [reflexivity|]. split; [vm_compute; reflexivity|].
  intros [v Hv]. vm_compute in Hv. discriminate.
Qed.

(** ** Word order and byte order of a multi-word value *)

Section Words.
Import struct.
Variables bo wo : Endian.

Lemma mapM_map_ret {X Y W} (f : Y -> result W) (h : X -> Y) (g : X -> W) l :
  Forall (fun x => f (h x) = Ret (g x)) l -> mapM f (map h l) = Ret (map g l).
Proof.
  induction 1 as [|x l Hx _ IH]; simpl; [reflexivity|].
  rewrite Hx, IH. reflexivity.
Qed.

Lemma reorder_map {X Y} (h : X -> Y) l : reorder wo (map h l) = map h (reorder wo l).
Proof. unfold reorder. destruct (Endian_eqb wo Little); [apply eq_sym, map_rev|reflexivity]. Qed.

Lemma reorder_involutive {X} (l : list X) : reorder wo (reorder wo l) = l.
Proof. unfold reorder. destruct (Endian_eqb wo Little); [apply rev_involutive|reflexivity]. Qed.

Lemma reorder_Forall {X} (P : X -> Prop) l : Forall P l -> Forall P (reorder wo l).
Proof. unfold reorder. destruct (Endian_eqb wo Little); [apply Forall_rev|auto]. Qed.

Lemma reorder_length {X} (l : list X) : length (reorder wo l) = length l.
Proof. unfold reorder. destruct (Endian_eqb wo Little); [apply length_rev|reflexivity]. Qed.

Lemma len_even_pairs s : len s mod 2 = 0 -> concat (pairs s) = s.
Proof. intros H. rewrite pairs_concat, H. apply app_nil_r. Qed.

Lemma pairs_concat_len2 (L : list bytes) : Forall len2 L -> pairs (concat L) = L.
Proof.
  induction 1 as [|ch L Hch _ IH]; [reflexivity|].
  destruct ch as [|x [|y [|z ch]]]; try discriminate Hch.
  cbn [concat app pairs]. rewrite IH. reflexivity.
Qed.

Lemma len_concat_len2 (L : list bytes) : Forall len2 L -> len (concat L) = 2 * len L.
Proof.
  induction 1 as [|ch L Hch _ IH]; [reflexivity|].
  cbn [concat]. rewrite len_app, IH. unfold len2 in Hch. unfold len.
  cbn [length]. lia.
Qed.

Lemma shuffled_len2 s : Forall len2 (map (swap bo) (reorder wo (pairs s))).
Proof.
  apply Forall_map, reorder_Forall.
  eapply Forall_impl; [|apply pairs_len2]. intros ch. apply swap_len2.
Qed.

Lemma len_shuffle s : len s mod 2 = 0 -> len (shuffle bo wo s) = len s.
Proof.
  intros H. unfold shuffle. rewrite len_concat_len2 by apply shuffled_len2.
  unfold len at 1. rewrite length_map, reorder_length. fold (len (pairs s)).
  rewrite pairs_length.
  pose proof (Z.div_mod (len s) 2 ltac:(lia)) as E.
  replace (len s + 1) with (1 + (len s / 2) * 2) by lia.
  rewrite Z.div_add by lia. change (1 / 2) with 0. lia.
Qed.

Lemma shuffle_involutive s : len s mod 2 = 0 -> shuffle bo wo (shuffle bo wo s) = s.
Proof.
  intros H. unfold shuffle at 1.
  unfold shuffle. rewrite pairs_concat_len2 by apply shuffled_len2.
  rewrite reorder_map, reorder_involutive, map_map.
  rewrite (map_ext _ (fun ch => ch)) by (intros; apply swap_involutive).
  rewrite map_id. apply len_even_pairs, H.
Qed.

Lemma words_body_run k s :
  len s = 2 * k -> words_body bo wo k s = Ret (shuffle bo wo s).
Proof.
  intros Hs. unfold words_body, unpack_nH. rewrite Hs, Z.eqb_refl. cbn [rbind].
  assert (Heven : len s mod 2 = 0).
  { rewrite Hs, Z.mul_comm. apply Z.mod_mul. lia. }
  assert (Hk : Z.to_nat k = length (pairs s)).
  { pose proof (pairs_length s) as E. unfold len in E at 1.
    replace (len s + 1) with (1 + k * 2) in E by lia.
    rewrite Z.div_add in E by lia. change (1 / 2) with 0 in E. lia. }
  rewrite <- (len_even_pairs s Heven) at 1.
  rewrite Hk, shorts_concat by apply pairs_len2.
  rewrite reorder_map.
  rewrite (mapM_map_ret _ _ (swap bo)); [reflexivity|].
  apply reorder_Forall. eapply Forall_impl; [|apply pairs_len2].
  intros ch. apply pack_H_be.
Qed.

End Words.

Lemma pack_words_run c k v (b : B.t) :
  WC_words c = Ret k -> Z.of_nat (struct.calcsize c) = 2 * k ->
  struct.in_range c v = true ->
  B._pack_words c v b
  = (Ret (shuffle (B._byteorder b) (B._wordorder b)
                  (struct.be_split (struct.calcsize c) v)), b).
Proof.
  intros Hk Hc Hv.
  assert (E : B._pack_words c v b
              = (rbind (struct.pack Big c v) (fun s =>
                 rbind (WC_words c) (fun k =>
                 words_body (B._byteorder b) (B._wordorder b) k s)), b)).
  { unfold B._pack_words, bind, get, lift, ret, words_body, reorder.
    destruct (struct.pack Big c v); cbn [rbind]; [|reflexivity].
    destruct (WC_words c); cbn [rbind]; [|reflexivity].
    destruct (struct.unpack_nH a0 a); cbn [rbind]; [|reflexivity].
    destruct (mapM _ _); reflexivity. }
  rewrite E. unfold struct.pack. rewrite Hv, Hk. cbn [rbind struct.to_order].
  rewrite words_body_run; [reflexivity|].
  unfold len, struct.be_split. rewrite length_rev, length_le_split. exact Hc.
Qed.

Lemma unpack_words_run c k h (d : D.t) :
  WC_words c = Ret k -> len h = 2 * k ->
  D._unpack_words c h d
  = (Ret (shuffle (D._byteorder d) (D._wordorder d) h), d).
Proof.
  intros Hk Hh.
  assert (E : D._unpack_words c h d
              = (rbind (WC_words c) (fun k =>
                 words_body (D._byteorder d) (D._wordorder d) k h), d)).
  { unfold D._unpack_words, bind, get, lift, ret, words_body, reorder,
      make_byte_string.
    destruct (WC_words c); cbn [rbind]; [|reflexivity].
    destruct (struct.unpack_nH a h); cbn [rbind]; [|reflexivity].
    destruct (mapM _ _); reflexivity. }
  rewrite E, Hk. cbn [rbind]. rewrite words_body_run by exact Hh. reflexivity.
Qed.

(** ** Round trip of the numeric types *)

Lemma unpack_to_order o c v :
  struct.in_range c v = true ->
  struct.unpack o c (struct.to_order o (struct.calcsize c) v) = Ret v.
Proof.
  intros H. unfold struct.unpack.
  rewrite length_to_order, Nat.eqb_refl, of_order_to_order, interp_wrap by exact H.
  reflexivity.
Qed.

Lemma len_be_split n v : len (struct.be_split n v) = Z.of_nat n.
Proof. unfold len, struct.be_split. rewrite length_rev, length_le_split. reflexivity. Qed.

Lemma calcsize_even t :
  uses_words t = true -> Z.of_nat (struct.calcsize (code_of t)) mod 2 = 0.
Proof. destruct t; try discriminate; reflexivity. Qed.

Lemma len_encoded t bo wo x : len (encoded t bo wo x) = width t.
Proof.
  unfold encoded. destruct (uses_words t) eqn:W.
  - rewrite len_shuffle; rewrite len_be_split.
    + apply eq_sym, width_calcsize.
    + apply calcsize_even, W.
  - unfold len. rewrite length_to_order. apply eq_sym, width_calcsize.
Qed.

Lemma add_run t x (b : B.t) :
  representable t x = true ->
  add t x b
  = (Ret tt, B.mk (B._payload b ++ [encoded t (B._byteorder b) (B._wordorder b) x])
                  (B._byteorder b) (B._wordorder b) (B._repack b)).
Proof.
  unfold representable. intros H.
  destruct t; cbn [add];
    try (match goal with |- ?m x b = _ => unfold m end;
         unfold bind, get, lift, struct.pack; cbn [code_of] in H; rewrite H;
         reflexivity);
    match goal with |- ?m x b = _ => unfold m end;
    erewrite bind_ret_run
      by (eapply pack_words_run; [reflexivity|reflexivity|exact H]);
    reflexivity.
Qed.

Lemma handle_of_init s bo wo n :
  len s = n -> handle_of (D.__init__ s bo wo) n = s.
Proof.
  intros H. unfold handle_of, D.__init__. cbn [D._payload D._pointer].
  replace (0 + n - n) with 0 by lia. rewrite Z.add_0_l, <- H.
  apply py_slice_all.
Qed.

(** C1: for each of the numeric types (8, 16, 32 and 64-bit signed and
    unsigned integers; 16, 32 and 64-bit floats, a float being its bit
    pattern), each value [x] of the type and each byte order and word order,
    adding [x] to a fresh builder succeeds, the buffer has the width of the
    type, and the decode operation of the type on a decoder of that buffer
    with the same byte order and word order returns [x]. *)
Theorem numeric_roundtrip (t : numtype) (bo wo : Endian) (repack : bool) (x : Z) :
  representable t x = true ->
  exists buffer,
    run (add t x ;; B.to_string) (fresh bo wo repack) = Ret buffer /\
    len buffer = width t /\
    run (decode t) (D.__init__ buffer bo wo) = Ret x.
Proof.
  intros H. exists (encoded t bo wo x).
  assert (Hlen := len_encoded t bo wo x).
  repeat split.
  - unfold run. rewrite (bind_ret_run _ _ _ (@add_run t x (fresh bo wo repack) H)).
    rewrite to_string_run. cbn. rewrite app_nil_r. reflexivity.
  - exact Hlen.
  - unfold run. rewrite decode_run. cbn [fst].
    rewrite handle_of_init by exact Hlen. cbn [D.__init__ D._byteorder].
    unfold encoded in *. unfold representable in H.
    destruct (uses_words t) eqn:W.
    + unfold run.
      rewrite unpack_words_run with (k := width t / 2);
        [|apply WC_words_width, W| rewrite width_even by exact W; exact Hlen].
      cbn [fst rbind advanced D._byteorder D._wordorder D.__init__].
      rewrite shuffle_involutive
        by (rewrite len_be_split; apply calcsize_even, W).
      apply (unpack_to_order Big), H.
    + apply unpack_to_order, H.
Qed.

Lemma numeric_roundtrip_witness :
  representable I64 (-2) = true /\
  exists buffer,
    run (add I64 (-2) ;; B.to_string) (fresh Little Little false) = Ret buffer /\
    len buffer = width I64 /\
    run (decode I64) (D.__init__ buffer Little Little) = Ret (-2).
Proof.
  split; [reflexivity|].
  apply (numeric_roundtrip I64 Little Little false (-2)). reflexivity.
Defined.

(** ** Bits and coils *)

Lemma octets_spec (n : nat) (l : list bool) :
  length l = (8 * n)%nat ->
  concat (octets l) = l /\ Forall len8 (octets l) /\ length (octets l) = n.
Proof.
  revert l. induction n as [|n IH]; intros l Hl.
  - destruct l; [|discriminate]. repeat split. constructor.
  - do 8 (destruct l as [|? l]; [simpl in Hl; lia|]).
    destruct (IH l) as [Hc [Hf Hn]]; [simpl in Hl; lia|].
    cbn [octets concat app length]. rewrite Hc, Hn.
    repeat split. constructor; [reflexivity|assumption].
Qed.

Lemma octets_multiple (l : list bool) :
  len l mod 8 = 0 ->
  concat (octets l) = l /\ Forall len8 (octets l) /\ len (octets l) = len l / 8.
Proof.
  intros H. unfold len in *.
  destruct (octets_spec (Z.to_nat (Z.of_nat (length l) / 8)) l) as [Hc [Hf Hn]].
  - Z.to_euclidean_division_equations. lia.
  - repeat split; try assumption. rewrite Hn.
    Z.to_euclidean_division_equations. lia.
Qed.

Lemma byte_of_msb_bits_of_byte (x : byte) :
  byte_of_msb_bits (msb_bits_of_byte x) = x.
Proof. destruct x; vm_compute; reflexivity. Qed.

Lemma msb_bits_of_byte_of_bits (g : list bool) :
  len8 g -> msb_bits_of_byte (byte_of_msb_bits g) = g.
Proof.
  unfold len8. intros H.
  do 8 (destruct g as [|[|] g]; [discriminate H|..]).
  all: destruct g; [vm_compute; reflexivity|discriminate H].
Qed.

Lemma msb_bits_len8 (x : byte) : len8 (msb_bits_of_byte x).
Proof. reflexivity. Qed.

Lemma bits_of_bytes_app s1 s2 :
  bits_of_bytes (s1 ++ s2) = bits_of_bytes s1 ++ bits_of_bytes s2.
Proof. apply flat_map_app. Qed.

Lemma bits_of_bytes_concat (L : list bytes) :
  concat (map bits_of_bytes L) = bits_of_bytes (concat L).
Proof.
  induction L as [|ch L IH]; [reflexivity|].
  cbn [map concat]. rewrite bits_of_bytes_app, IH. reflexivity.
Qed.

Lemma bits_of_bytes_octets (s : bytes) :
  bits_of_bytes s = concat (map msb_bits_of_byte s).
Proof. apply flat_map_concat_map. Qed.

(** A full group of eight is one chunk of the packer, with nothing to pad. *)
Lemma pack_bitstring_octet (g : list bool) :
  len8 g -> pack_bitstring g = [byte_of_msb_bits (rev g)].
Proof.
  unfold len8. intros H. unfold pack_bitstring.
  replace (len g) with 8 by (unfold len; lia).
  change (Z.to_nat (Z.opp 8 mod 8)) with 0%nat. cbn [repeat app].
  rewrite <- (app_nil_r g) at 1.
  rewrite py_chunks_cons by (unfold len; lia).
  rewrite py_chunks_nil by lia. reflexivity.
Qed.

Lemma fold_left_app_flat_map {X} (f : X -> bytes) (l : list X) (acc : bytes) :
  fold_left (fun payload chunk => payload ++ f chunk) l acc = acc ++ flat_map f l.
Proof.
  revert acc. induction l as [|x l IH]; intros acc; simpl.
  - rewrite app_nil_r. reflexivity.
  - rewrite IH, app_assoc. reflexivity.
Qed.

(** [fromCoils] on whole groups of eight: one byte per group, its first coil
    the most significant bit. *)
Lemma fromCoils_octets (G : list (list bool)) bo wo :
  Forall len8 G ->
  D.fromCoils (PyList (map PyBool (concat G))) bo wo
  = Ret (D.__init__ (map byte_of_msb_bits G) bo Big).
Proof.
  intros HG. unfold D.fromCoils, D.bit_chunks, D.default_wordorder.
  assert (Hlen : len (map PyBool (concat G)) mod 8 = 0).
  { unfold len. rewrite length_map. clear bo wo.
    induction HG as [|g G Hg _ IH]; [reflexivity|].
    cbn [concat]. rewrite length_app, Hg, Nat2Z.inj_add.
    replace (Z.of_nat 8 + Z.of_nat (length (concat G)))
      with (Z.of_nat (length (concat G)) + 1 * 8) by lia.
    rewrite Z.mod_add by lia. exact IH. }
  rewrite Hlen. cbn [Z.eqb].
  rewrite concat_map.
  rewrite py_chunks_concat;
    [| lia
     | apply Forall_map; eapply Forall_impl; [|exact HG];
       intros g Hg; unfold len; rewrite length_map, Hg; reflexivity ].
  rewrite fold_left_app_flat_map. cbn [app]. do 2 f_equal.
  rewrite flat_map_concat_map, map_map. clear Hlen.
  induction HG as [|g G Hg _ IH]; [reflexivity|].
  cbn [map concat]. rewrite IH. clear IH.
  rewrite <- map_rev, map_map.
  rewrite (map_ext _ (fun x => x)) by reflexivity. rewrite map_id.
  rewrite pack_bitstring_octet by (unfold len8; rewrite length_rev; exact Hg).
  rewrite rev_involutive. reflexivity.
Qed.

(** [fromCoils] undoes the expansion of bytes into coils. *)
Lemma fromCoils_bits_of_bytes (s : bytes) bo wo :
  D.fromCoils (PyList (map PyBool (bits_of_bytes s))) bo wo
  = Ret (D.__init__ s bo Big).
Proof.
  rewrite bits_of_bytes_octets, fromCoils_octets.
  - rewrite map_map, (map_ext _ (fun x => x)) by apply byte_of_msb_bits_of_byte.
    rewrite map_id. reflexivity.
  - apply Forall_map, Forall_forall. intros x _. apply msb_bits_len8.
Qed.

Lemma decode_bits_run s1 (x : byte) rest bo wo :
  D.decode_bits (D.mk (s1 ++ x :: rest) (len s1) bo wo)
  = (Ret (unpack_bitstring [x]), D.mk (s1 ++ x :: rest) (len s1 + 1) bo wo).
Proof.
  unfold D.decode_bits, bind, D.advance, get, ret, make_byte_string.
  cbn [D._payload D._pointer D._byteorder D._wordorder].
  replace (len s1 + 1 - 1) with (len s1 + 0) by lia.
  replace (len s1 + 1) with (len s1 + 0 + 1) at 1 by lia.
  rewrite py_slice_app_shift by lia.
  change (x :: rest) with ([x] ++ rest).
  change (0 + 1) with (len [x]). rewrite py_slice_head. reflexivity.
Qed.

Lemma decode_bits_n_run s2 : forall s1 s3 bo wo,
  run (decode_bits_n (length s2)) (D.mk (s1 ++ s2 ++ s3) (len s1) bo wo)
  = Ret (unpack_bitstring s2).
Proof.
  induction s2 as [|x s2 IH]; intros s1 s3 bo wo; [reflexivity|].
  cbn [length decode_bits_n]. unfold run.
  cbn [app]. rewrite (bind_ret_run _ _ _ (decode_bits_run s1 x (s2 ++ s3) bo wo)).
  specialize (IH (s1 ++ [x]) s3 bo wo). unfold run in IH.
  rewrite <- app_assoc, len_app in IH. cbn [app] in IH. change (len [x]) with 1 in IH.
  unfold bind, ret.
  destruct (decode_bits_n (length s2) _) as [r d'].
  cbn [fst] in IH. subst r. reflexivity.
Qed.

Lemma left_padded_len (bits : list bool) :
  len (left_padded bits) mod 8 = 0 /\
  len (left_padded bits) / 8 = (len bits + 7) / 8.
Proof.
  unfold left_padded. rewrite len_app.
  pose proof (len_nonneg bits).
  assert (Hr : len (repeat false (Z.to_nat ((- len bits) mod 8))) = (- len bits) mod 8).
  { unfold len at 1. rewrite repeat_length.
    apply Z2Nat.id. apply Z.mod_pos_bound. lia. }
  rewrite Hr. Z.to_euclidean_division_equations. lia.
Qed.

Lemma unpack_bitstring_packed (G : list (list bool)) :
  Forall len8 G ->
  unpack_bitstring (map (fun g => byte_of_msb_bits (rev g)) G) = concat G.
Proof.
  unfold unpack_bitstring. induction 1 as [|g G Hg _ IH]; [reflexivity|].
  cbn [map flat_map concat]. rewrite IH.
  rewrite msb_bits_of_byte_of_bits by (unfold len8; rewrite length_rev; exact Hg).
  rewrite rev_involutive. reflexivity.
Qed.

Lemma coils_of_bytes (o : Endian) (P : list bytes) :
  concat (map (fun ch => bits_of_bytes (swap o ch)) P)
  = bits_of_bytes (concat (map (swap o) P)).
Proof. rewrite <- bits_of_bytes_concat, map_map. reflexivity. Qed.

Lemma be_combine_split2 r : u16 r -> struct.be_combine (struct.be_split 2 r) = r.
Proof.
  intros H. pose proof (of_order_to_order Big 2 r) as E.
  cbn [struct.of_order struct.to_order] in E. rewrite E.
  apply Z.mod_small. exact H.
Qed.

Lemma be_split_len2 r : len2 (struct.be_split 2 r).
Proof. apply (length_to_order Big). Qed.

(** C4: for any builder, the decoder [fromRegisters] makes of its
    [to_registers()] holds a buffer that reads back as the same register
    list; for any list of booleans of a length that is a multiple of 8, the
    buffer of the decoder [fromCoils] makes of it expands, each byte most
    significant bit first, to the same list; and for any builder, the decoder
    [fromCoils] makes of its [to_coils()] holds a buffer that reads back as
    the same coil list. *)
Theorem registers_coils_reversible
    (b : B.t) (coils : list bool) (bo wo bo' wo' : Endian) :
  len coils mod 8 = 0 ->
  (exists regs d,
      run B.to_registers b = Ret regs /\
      D.fromRegisters (PyList (map PyInt regs)) bo wo = Ret d /\
      run B.to_registers (holding (D._payload d) bo' wo') = Ret regs) /\
  (exists d,
      D.fromCoils (PyList (map PyBool coils)) bo wo = Ret d /\
      bits_of_bytes (D._payload d) = coils) /\
  (exists cs d,
      run B.to_coils b = Ret cs /\
      D.fromCoils (PyList (map PyBool cs)) bo wo = Ret d /\
      run B.to_coils (holding (D._payload d) bo' wo') = Ret cs).
Proof.
  intros Hcoils. set (s := concat (B._payload b)).
  set (o := register_order b). split; [|split].
  - exists (map (struct.of_order o) (pairs s)).
    eexists. split; [unfold run; rewrite to_registers_run; reflexivity|].
    assert (Hu : Forall u16 (map (struct.of_order o) (pairs s))).
    { apply Forall_map. eapply Forall_impl; [|apply pairs_len2].
      intros ch. apply of_order_u16. }
    split; [apply fromRegisters_u16, Hu|].
    unfold run. rewrite to_registers_run.
    cbn [fst holding B.__init__ B._payload D.__init__ D._payload concat].
    rewrite app_nil_r.
    rewrite pairs_concat_len2
      by (apply Forall_map, Forall_forall; intros; apply be_split_len2).
    unfold register_order. cbn [B._repack].
    rewrite map_map. f_equal.
    rewrite <- (map_id (map (struct.of_order o) (pairs s))) at 2.
    apply map_ext_in. intros r Hr. rewrite Forall_forall in Hu.
    apply be_combine_split2, Hu, Hr.
  - destruct (octets_multiple coils Hcoils) as [Hc [Hf _]].
    exists (D.__init__ (map byte_of_msb_bits (octets coils)) bo Big). split.
    + rewrite <- Hc at 1. apply fromCoils_octets, Hf.
    + cbn [D.__init__ D._payload]. rewrite bits_of_bytes_octets, map_map.
      rewrite <- Hc at 2. f_equal.
      rewrite <- (map_id (octets coils)) at 2.
      apply map_ext_in. intros g Hg. rewrite Forall_forall in Hf.
      apply msb_bits_of_byte_of_bits, Hf, Hg.
  - exists (bits_of_bytes (concat (map (swap o) (pairs s)))). eexists.
    split; [unfold run; rewrite to_coils_run; fold s; fold o; cbn [fst];
            f_equal; apply coils_of_bytes|].
    split; [apply fromCoils_bits_of_bytes|].
    unfold run. rewrite to_coils_run.
    cbn [fst holding B.__init__ B._payload D.__init__ D._payload concat].
    rewrite app_nil_r.
    rewrite pairs_concat_len2
      by (apply Forall_map; eapply Forall_impl; [|apply pairs_len2];
          intros ch; apply swap_len2).
    rewrite <- bits_of_bytes_concat. reflexivity.
Qed.

Lemma registers_coils_reversible_witness :
  len [true; false; false; false; true; false; false; false] mod 8 = 0 /\
  (exists regs d,
      run B.to_registers (B.mk [[Byte.x12; Byte.x34]; [Byte.x56]] Little Big true) = Ret regs /\
      D.fromRegisters (PyList (map PyInt regs)) Little Big = Ret d /\
      run B.to_registers (holding (D._payload d) Big Little) = Ret regs) /\
  (exists d,
      D.fromCoils (PyList (map PyBool [true; false; false; false; true; false; false; false]))
                  Little Big = Ret d /\
      bits_of_bytes (D._payload d) = [true; false; false; false; true; false; false; false]) /\
  (exists cs d,
      run B.to_coils (B.mk [[Byte.x12; Byte.x34]; [Byte.x56]] Little Big true) = Ret cs /\
      D.fromCoils (PyList (map PyBool cs)) Little Big = Ret d /\
      run B.to_coils (holding (D._payload d) Big Little) = Ret cs).
Proof.
  split; [reflexivity|].
  apply (registers_coils_reversible
           (B.mk [[Byte.x12; Byte.x34]; [Byte.x56]] Little Big true)
           [true; false; false; false; true; false; false; false]
           Little Big Big Little).
  reflexivity.
Defined.

Lemma add_bits_run bits (b : B.t) :
  B.add_bits bits b
  = (Ret tt, B.mk (B._payload b ++ [pack_bitstring bits])
                  (B._byteorder b) (B._wordorder b) (B._repack b)).
Proof. reflexivity. Qed.

Lemma pack_bitstring_octets (bits : list bool) :
  pack_bitstring bits
  = map (fun g => byte_of_msb_bits (rev g)) (octets (left_padded bits)).
Proof.
  unfold pack_bitstring. fold (left_padded bits).
  destruct (left_padded_len bits) as [Hm _].
  destruct (octets_multiple _ Hm) as [Hc [Hf _]].
  rewrite <- Hc at 1. rewrite py_chunks_concat; [reflexivity|lia|].
  eapply Forall_impl; [|exact Hf]. intros g Hg. unfold len. rewrite Hg. reflexivity.
Qed.

(** C3: a sequence of booleans (whatever its length, so in particular when
    that is no multiple of 8) added with [add_bits] to a fresh builder, turned
    into coils with [to_coils], given to [fromCoils] and read with
    [decode_bits], once per byte [add_bits] packed, comes back padded on the
    left with [false] to the next multiple of 8.  In particular
    [true, false, true] comes back as five times [false], then [true, false,
    true]. *)
Theorem bits_roundtrip (bits : list bool) (bo wo : Endian) :
  (exists coils d,
      run (B.add_bits bits ;; B.to_coils) (fresh bo wo false) = Ret coils /\
      D.fromCoils (PyList (map PyBool coils)) bo wo = Ret d /\
      run (decode_bits_n (Z.to_nat ((len bits + 7) / 8))) d
        = Ret (left_padded bits)) /\
  (exists coils d,
      run (B.add_bits [true; false; true] ;; B.to_coils) (fresh bo wo false) = Ret coils /\
      D.fromCoils (PyList (map PyBool coils)) bo wo = Ret d /\
      run D.decode_bits d
        = Ret [false; false; false; false; false; true; false; true]).
Proof.
  split.
  - set (G := octets (left_padded bits)).
    set (Bs := map (fun g => byte_of_msb_bits (rev g)) G).
    set (pad := repeat Byte.x00 (Z.to_nat (len Bs mod 2))).
    destruct (left_padded_len bits) as [Hm Hdiv].
    destruct (octets_multiple _ Hm) as [Hc [Hf Hn]]. fold G in Hc, Hf, Hn.
    exists (bits_of_bytes (Bs ++ pad)), (D.__init__ (Bs ++ pad) bo Big).
    split; [|split].
    + unfold run. rewrite (bind_ret_run _ _ _ (add_bits_run bits (fresh bo wo false))).
      rewrite to_coils_run. cbn [fst]. f_equal.
      unfold register_order. cbn [B._repack B._payload fresh B.__init__ app concat].
      rewrite app_nil_r, pack_bitstring_octets. fold G. fold Bs.
      rewrite (coils_of_bytes Big). cbn [swap]. rewrite map_id.
      rewrite pairs_concat. reflexivity.
    + apply fromCoils_bits_of_bytes.
    + replace (Z.to_nat ((len bits + 7) / 8)) with (length Bs).
      * pose proof (decode_bits_n_run Bs [] pad bo Big) as E.
        cbn [app] in E. change (len (@nil byte)) with 0 in E.
        unfold D.__init__. rewrite E.
        unfold Bs. rewrite unpack_bitstring_packed by exact Hf.
        rewrite Hc. reflexivity.
      * unfold Bs. rewrite length_map. unfold len in *. lia.
  - destruct bo, wo; eexists; eexists; repeat split; vm_compute; reflexivity.
Qed.

Unset Implicit Arguments.

(** ** Reading at the cursor *)

Lemma py_slice_at {A} (pre h post : list A) :
  py_slice (pre ++ h ++ post) (len pre + len h - len h) (len pre + len h) = h.
Proof.
  pose proof (len_nonneg h).
  replace (len pre + len h - len h) with (len pre + 0) by lia.
  replace (len pre + len h) with (len pre + 0 + len h) by lia.
  rewrite py_slice_app_shift by lia. rewrite Z.add_0_l. apply py_slice_head.
Qed.

Lemma handle_of_at pre h post bo wo :
  handle_of (D.mk (pre ++ h ++ post) (len pre) bo wo) (len h) = h.
Proof. unfold handle_of. cbn [D._payload D._pointer]. apply py_slice_at. Qed.

Lemma decode_words_value t bo wo x d :
  uses_words t = true -> representable t x = true ->
  D._byteorder d = bo -> D._wordorder d = wo ->
  rbind (run (D._unpack_words (code_of t) (encoded t bo wo x)) d)
        (struct.unpack Big (code_of t)) = Ret x.
Proof.
  intros W H Hbo Hwo. unfold run.
  rewrite unpack_words_run with (k := width t / 2);
    [|apply WC_words_width, W
     | rewrite width_even by exact W; apply len_encoded].
  cbn [fst rbind]. rewrite Hbo, Hwo. unfold encoded. rewrite W.
  rewrite shuffle_involutive by (rewrite len_be_split; apply calcsize_even, W).
  apply (unpack_to_order Big), H.
Qed.

Lemma decode_at t x pre post bo wo :
  representable t x = true ->
  decode t (D.mk (pre ++ encoded t bo wo x ++ post) (len pre) bo wo)
  = (Ret x, D.mk (pre ++ encoded t bo wo x ++ post) (len pre + width t) bo wo).
Proof.
  intros H. rewrite decode_run. unfold advanced.
  cbn [D._payload D._pointer D._byteorder D._wordorder].
  assert (Hh : handle_of (D.mk (pre ++ encoded t bo wo x ++ post) (len pre) bo wo)
                         (width t) = encoded t bo wo x).
  { rewrite <- (len_encoded t bo wo x). apply handle_of_at. }
  rewrite Hh. f_equal.
  destruct (uses_words t) eqn:W.
  - apply decode_words_value; auto.
  - unfold encoded. rewrite W. apply unpack_to_order, H.
Qed.

Lemma decode_string_at s pre post bo wo :
  D.decode_string (len s) (D.mk (pre ++ s ++ post) (len pre) bo wo)
  = (Ret s, D.mk (pre ++ s ++ post) (len pre + len s) bo wo).
Proof.
  unfold D.decode_string, bind, D.advance, get, ret.
  cbn [D._payload D._pointer D._byteorder D._wordorder].
  rewrite py_slice_at. reflexivity.
Qed.

Lemma len_field_bytes bo wo f :
  len (field_bytes bo wo f) = match f with FNum t _ => width t | FStr s => len s end.
Proof. destruct f; [apply len_encoded|reflexivity]. Qed.

Lemma decode_field_at f pre post bo wo :
  field_ok f ->
  decode_field f (D.mk (pre ++ field_bytes bo wo f ++ post) (len pre) bo wo)
  = (Ret (field_value f),
     D.mk (pre ++ field_bytes bo wo f ++ post) (len pre + len (field_bytes bo wo f)) bo wo).
Proof.
  intros H. rewrite len_field_bytes. destruct f as [t x|s]; cbn [decode_field call field_bytes field_value].
  - rewrite (bind_ret_run _ _ _ (decode_at t x pre post bo wo H)). reflexivity.
  - rewrite (bind_ret_run _ _ _ (decode_string_at s pre post bo wo)). reflexivity.
Qed.

Lemma decode_all_at bo wo fs :
  Forall field_ok fs -> forall pre post,
  run (decode_all fs)
      (D.mk (pre ++ concat (map (field_bytes bo wo) fs) ++ post) (len pre) bo wo)
  = Ret (map field_value fs).
Proof.
  induction 1 as [|f fs Hf _ IH]; intros pre post; [reflexivity|].
  cbn [decode_all map concat]. unfold run.
  rewrite <- (app_assoc (field_bytes bo wo f)).
  rewrite (bind_ret_run _ _ _ (decode_field_at f pre _ bo wo Hf)).
  specialize (IH (pre ++ field_bytes bo wo f) post). unfold run in IH.
  rewrite <- app_assoc, len_app in IH.
  unfold bind, ret.
  destruct (decode_all fs _) as [r d']. cbn [fst] in IH. subst r. reflexivity.
Qed.

Lemma add_field_run f (b : B.t) :
  field_ok f ->
  add_field f b
  = (Ret tt, B.mk (B._payload b ++ [field_bytes (B._byteorder b) (B._wordorder b) f])
                  (B._byteorder b) (B._wordorder b) (B._repack b)).
Proof.
  destruct f as [t x|s]; intros H; [apply add_run, H|reflexivity].
Qed.

Lemma add_all_run fs :
  Forall field_ok fs -> forall b : B.t,
  add_all fs b
  = (Ret tt, B.mk (B._payload b ++ map (field_bytes (B._byteorder b) (B._wordorder b)) fs)
                  (B._byteorder b) (B._wordorder b) (B._repack b)).
Proof.
  induction 1 as [|f fs Hf _ IH]; intros b.
  - cbn [add_all map]. unfold ret. rewrite app_nil_r. destruct b; reflexivity.
  - cbn [add_all map]. rewrite (bind_ret_run _ _ _ (add_field_run f b Hf)).
    rewrite IH. cbn [B._payload B._byteorder B._wordorder B._repack].
    rewrite <- app_assoc. reflexivity.
Qed.

(** X1: a record of numbers and strings written with the add calls into a
    fresh builder and read back, from the buffer [to_string] returns, with
    the matching decode calls in the same order and the same byte and word
    order, gives the values written. *)
Theorem record_roundtrip (fs : list field) (bo wo : Endian) (repack : bool) :
  Forall field_ok fs ->
  exists buffer,
    run (add_all fs ;; B.to_string) (fresh bo wo repack) = Ret buffer /\
    run (decode_all fs) (D.__init__ buffer bo wo) = Ret (map field_value fs).
Proof.
  intros H. exists (concat (map (field_bytes bo wo) fs)). split.
  - unfold run. rewrite (bind_ret_run _ _ _ (add_all_run fs H (fresh bo wo repack))).
    reflexivity.
  - pose proof (decode_all_at bo wo fs H [] []) as E.
    cbn [app] in E. rewrite app_nil_r in E. exact E.
Qed.

Lemma record_roundtrip_witness :
  Forall field_ok [FNum U8 7; FStr [Byte.x61; Byte.x62; Byte.x63]; FNum I32 (-5); FNum F64 1] /\
  exists buffer,
    run (add_all [FNum U8 7; FStr [Byte.x61; Byte.x62; Byte.x63]; FNum I32 (-5); FNum F64 1]
         ;; B.to_string) (fresh Little Little false) = Ret buffer /\
    run (decode_all [FNum U8 7; FStr [Byte.x61; Byte.x62; Byte.x63]; FNum I32 (-5); FNum F64 1])
        (D.__init__ buffer Little Little)
    = Ret [VInt 7; VBytes [Byte.x61; Byte.x62; Byte.x63]; VInt (-5); VInt 1].
Proof.
  assert (H : Forall field_ok
                [FNum U8 7; FStr [Byte.x61; Byte.x62; Byte.x63]; FNum I32 (-5); FNum F64 1])
    by (repeat constructor).
  split; [exact H|].
  apply (record_roundtrip _ Little Little false H).
Defined.

Lemma split2_combine_chunks (L : list bytes) :
  Forall len2 L ->
  concat (map (struct.be_split 2) (map struct.be_combine L)) = concat L.
Proof.
  induction 1 as [|ch L Hch _ IH]; [reflexivity|].
  cbn [map concat]. rewrite IH, be_split2_combine by exact Hch. reflexivity.
Qed.

(** X2: the same record sent as registers: written into a fresh builder
    (repack off), turned into registers with [to_registers], made a decoder
    with [fromRegisters] and read with the matching decode calls in the same
    order, it gives the values written, whether its length in bytes is even
    or odd. *)
Theorem record_roundtrip_registers (fs : list field) (bo wo : Endian) :
  Forall field_ok fs ->
  exists regs d,
    run (add_all fs ;; B.to_registers) (fresh bo wo false) = Ret regs /\
    D.fromRegisters (PyList (map PyInt regs)) bo wo = Ret d /\
    run (decode_all fs) d = Ret (map field_value fs).
Proof.
  intros H. set (s := concat (map (field_bytes bo wo) fs)).
  exists (map struct.be_combine (pairs s)).
  eexists. split; [|split].
  - unfold run. rewrite (bind_ret_run _ _ _ (add_all_run fs H (fresh bo wo false))).
    rewrite to_registers_run. reflexivity.
  - apply fromRegisters_u16. apply Forall_map.
    eapply Forall_impl; [|apply pairs_len2]. intros ch. apply (of_order_u16 Big).
  - rewrite split2_combine_chunks by apply pairs_len2.
    rewrite pairs_concat. unfold D.__init__.
    pose proof (decode_all_at bo wo fs H []
                  (repeat Byte.x00 (Z.to_nat (len s mod 2)))) as E.
    exact E.
Qed.

Lemma record_roundtrip_registers_witness :
  Forall field_ok [FNum U8 7; FNum I32 (-5); FStr [Byte.x61; Byte.x62]] /\
  exists regs d,
    run (add_all [FNum U8 7; FNum I32 (-5); FStr [Byte.x61; Byte.x62]]
         ;; B.to_registers) (fresh Little Big false) = Ret regs /\
    D.fromRegisters (PyList (map PyInt regs)) Little Big = Ret d /\
    run (decode_all [FNum U8 7; FNum I32 (-5); FStr [Byte.x61; Byte.x62]]) d
    = Ret [VInt 7; VInt (-5); VBytes [Byte.x61; Byte.x62]].
Proof.
  assert (H : Forall field_ok [FNum U8 7; FNum I32 (-5); FStr [Byte.x61; Byte.x62]])
    by (repeat constructor).
  split; [exact H|].
  apply (record_roundtrip_registers _ Little Big H).
Defined.

(** ** What an add call does to the builder *)

Lemma bind_raise_run {S A B} (m : M S A) (k : A -> M S B) s e s' :
  m s = (Raise e, s') -> bind m k s = (Raise e, s').
Proof. intros H. unfold bind. rewrite H. reflexivity. Qed.

Lemma add_refused t x (b : B.t) :
  representable t x = false -> add t x b = (Raise struct_error, b).
Proof.
  unfold representable. intros H.
  destruct t; cbn [add code_of] in *;
    match goal with |- ?m x b = _ => unfold m end;
    unfold B._pack_words, bind, get, lift, struct.pack; rewrite H; reflexivity.
Qed.

(** X3: an integer add call given a value outside the range of its type
    raises struct.error and leaves the builder as it was: nothing is
    appended. *)
Theorem add_out_of_range (t : numtype) (x : Z) (b : B.t) :
  is_integer t = true -> representable t x = false ->
  add t x b = (Raise struct_error, b) /\
  run (add t x ;; B.to_string) b = Raise struct_error /\
  run B.to_string (exec (add t x) b) = run B.to_string b.
Proof.
  intros _ H. pose proof (add_refused t x b H) as E.
  repeat split.
  - exact E.
  - unfold run. rewrite (bind_raise_run _ _ _ _ _ E). reflexivity.
  - unfold exec. rewrite E. reflexivity.
Qed.

Lemma add_out_of_range_witness :
  is_integer U8 = true /\ representable U8 256 = false /\
  add U8 256 (B.mk [[Byte.x01]] Little Big false)
    = (Raise struct_error, B.mk [[Byte.x01]] Little Big false) /\
  run (add U8 256 ;; B.to_string) (B.mk [[Byte.x01]] Little Big false)
    = Raise struct_error /\
  run B.to_string (exec (add U8 256) (B.mk [[Byte.x01]] Little Big false))
    = run B.to_string (B.mk [[Byte.x01]] Little Big false).
Proof.
  split; [reflexivity|]. split; [reflexivity|].
  apply (add_out_of_range U8 256 (B.mk [[Byte.x01]] Little Big false));
    reflexivity.
Defined.

(** X4: an add call given a value of its type appends exactly one fragment,
    as many bytes long as the type is wide, after the fragments already
    there, which it leaves as they were; the byte order, the word order and
    the repack flag stay. *)
Theorem add_appends (t : numtype) (x : Z) (b : B.t) :
  representable t x = true ->
  exists frag,
    len frag = width t /\
    add t x b = (Ret tt, B.mk (B._payload b ++ [frag])
                              (B._byteorder b) (B._wordorder b) (B._repack b)) /\
    run (add t x ;; B.to_string) b = Ret (concat (B._payload b) ++ frag).
Proof.
  intros H. exists (encoded t (B._byteorder b) (B._wordorder b) x).
  pose proof (add_run t x b H) as E.
  repeat split.
  - apply len_encoded.
  - exact E.
  - unfold run. rewrite (bind_ret_run _ _ _ E). rewrite to_string_run.
    cbn [fst B._payload]. rewrite concat_app. cbn [concat]. rewrite app_nil_r.
    reflexivity.
Qed.

Lemma add_appends_witness :
  representable I16 (-2) = true /\
  exists frag,
    len frag = width I16 /\
    add I16 (-2) (B.mk [[Byte.x01]] Little Big false)
      = (Ret tt, B.mk ([[Byte.x01]] ++ [frag]) Little Big false) /\
    run (add I16 (-2) ;; B.to_string) (B.mk [[Byte.x01]] Little Big false)
      = Ret (concat [[Byte.x01]] ++ frag).
Proof.
  split; [reflexivity|].
  apply (add_appends I16 (-2) (B.mk [[Byte.x01]] Little Big false)).
  reflexivity.
Defined.

(** ** What a decode call reads *)

Lemma handle_full (d : D.t) n :
  0 <= D._pointer d -> 0 <= n -> n <= remaining d ->
  handle_of d n = firstn (Z.to_nat n) (skipn (Z.to_nat (D._pointer d)) (D._payload d)) /\
  len (handle_of d n) = n.
Proof.
  unfold remaining, handle_of. intros Hp Hn Hr.
  set (p := D._pointer d) in *. set (l := D._payload d) in *.
  replace (p + n - n) with p by lia.
  rewrite py_slice_from by lia.
  rewrite (Z.min_l p) by lia. rewrite Z.min_l by lia.
  replace (p + n - p) with n by lia.
  split; [reflexivity|].
  unfold len in *. rewrite length_firstn, length_skipn. lia.
Qed.

Lemma decode_buffer t (d : D.t) :
  len (handle_of d (width t)) = width t ->
  decode t d
  = (Ret (decoded t (D._byteorder d) (D._wordorder d) (handle_of d (width t))),
     advanced d (width t)).
Proof.
  intros Hlen. rewrite decode_run. f_equal. unfold decoded.
  set (h := handle_of d (width t)) in *.
  destruct (uses_words t) eqn:W.
  - unfold run.
    rewrite unpack_words_run with (k := width t / 2);
      [|apply WC_words_width, W|rewrite width_even by exact W; exact Hlen].
    cbn [fst rbind advanced D._byteorder D._wordorder].
    unfold struct.unpack.
    assert (E : length (shuffle (D._byteorder d) (D._wordorder d) h)
                = struct.calcsize (code_of t)).
    { pose proof (len_shuffle (D._byteorder d) (D._wordorder d) h) as L.
      rewrite Hlen in L. pose proof (calcsize_even t W) as Ev.
      rewrite <- width_calcsize in Ev. specialize (L Ev).
      pose proof (width_calcsize t). unfold len in L. lia. }
    rewrite E, Nat.eqb_refl. reflexivity.
  - unfold struct.unpack.
    assert (E : length h = struct.calcsize (code_of t)).
    { pose proof (width_calcsize t). unfold len in Hlen. lia. }
    rewrite E, Nat.eqb_refl. reflexivity.
Qed.

Lemma interp_in_range c u :
  0 <= u < 2 ^ struct.bits c -> struct.in_range c (struct.interp c u) = true.
Proof.
  unfold struct.in_range, struct.interp, struct.bits.
  destruct c; cbn [struct.kind_of struct.calcsize]; cbn; intros [Hlo Hhi];
    repeat match goal with
           | |- context [?a <? ?b] => destruct (Z.ltb_spec a b)
           | |- context [?a <=? ?b] => destruct (Z.leb_spec a b)
           end; try reflexivity; lia.
Qed.

Lemma decoded_representable t bo wo h :
  len h = width t -> representable t (decoded t bo wo h) = true.
Proof.
  intros Hlen. unfold representable, decoded.
  assert (Hb : struct.bits (code_of t) = 8 * width t)
    by (unfold struct.bits; rewrite width_calcsize; reflexivity).
  destruct (uses_words t) eqn:W; apply interp_in_range; rewrite Hb.
  - pose proof (of_order_bound Big (shuffle bo wo h)) as B0.
    rewrite len_shuffle in B0; [rewrite Hlen in B0; exact B0|].
    rewrite Hlen, width_calcsize. apply calcsize_even, W.
  - pose proof (of_order_bound bo h) as B0. rewrite Hlen in B0. exact B0.
Qed.

(** X5: with the cursor not negative and at least as many bytes left as the
    type is wide, a numeric decode call returns a value, that value is in the
    range of the type, the cursor moves by the width and the buffer stays. *)
Theorem decode_in_bounds (t : numtype) (d : D.t) :
  0 <= D._pointer d -> width t <= remaining d ->
  exists x,
    decode t d = (Ret x, D.mk (D._payload d) (D._pointer d + width t)
                              (D._byteorder d) (D._wordorder d)) /\
    representable t x = true.
Proof.
  intros Hp Hr. pose proof (width_pos t).
  destruct (handle_full d (width t) Hp ltac:(lia) Hr) as [_ Hlen].
  eexists. split; [apply decode_buffer, Hlen|].
  apply decoded_representable, Hlen.
Qed.

Lemma decode_in_bounds_witness :
  0 <= D._pointer (D.mk [Byte.x01; Byte.xff; Byte.xfe; Byte.x03] 1 Little Big) /\
  width I16 <= remaining (D.mk [Byte.x01; Byte.xff; Byte.xfe; Byte.x03] 1 Little Big) /\
  exists x,
    decode I16 (D.mk [Byte.x01; Byte.xff; Byte.xfe; Byte.x03] 1 Little Big)
      = (Ret x, D.mk [Byte.x01; Byte.xff; Byte.xfe; Byte.x03] (1 + width I16) Little Big) /\
    representable I16 x = true.
Proof.
  assert (H0 : 0 <= D._pointer (D.mk [Byte.x01; Byte.xff; Byte.xfe; Byte.x03] 1 Little Big))
    by (simpl; lia).
  assert (H1 : width I16
               <= remaining (D.mk [Byte.x01; Byte.xff; Byte.xfe; Byte.x03] 1 Little Big))
    by (vm_compute; discriminate).
  split; [exact H0|]. split; [exact H1|].
  apply (decode_in_bounds I16 (D.mk [Byte.x01; Byte.xff; Byte.xfe; Byte.x03] 1 Little Big)
                          H0 H1).
Defined.

(** ** From bytes to a value and back *)

Lemma to_order_interp o c u :
  struct.to_order o (struct.calcsize c) (struct.interp c u)
  = struct.to_order o (struct.calcsize c) u.
Proof.
  unfold struct.interp.
  destruct (struct.kind_of c); try reflexivity.
  destruct (u <? 2 ^ (struct.bits c - 1)); [reflexivity|].
  assert (E : le_split (struct.calcsize c) (u - 2 ^ struct.bits c)
              = le_split (struct.calcsize c) u).
  { rewrite (le_split_mod (u - 2 ^ struct.bits c)), (le_split_mod u).
    f_equal. unfold struct.bits.
    replace (8 * Z.of_nat (struct.calcsize c)) with (Z.of_nat (struct.calcsize c) * 8) by lia.
    set (m := 2 ^ (Z.of_nat (struct.calcsize c) * 8)).
    replace (u - m) with (u + (-1) * m) by lia.
    apply Z_mod_plus_full. }
  destruct o; unfold struct.to_order, struct.be_split; rewrite E; reflexivity.
Qed.

Lemma encoded_decoded t bo wo h :
  len h = width t -> encoded t bo wo (decoded t bo wo h) = h.
Proof.
  intros Hlen. unfold encoded, decoded.
  assert (Hn : struct.calcsize (code_of t) = length h).
  { pose proof (width_calcsize t). unfold len in Hlen. lia. }
  destruct (uses_words t) eqn:W.
  - pose proof (to_order_interp Big (code_of t)
                  (struct.be_combine (shuffle bo wo h))) as E.
    cbn [struct.to_order] in E. rewrite E.
    assert (Hev : len h mod 2 = 0)
      by (rewrite Hlen, width_calcsize; apply calcsize_even, W).
    assert (Hs : struct.calcsize (code_of t) = length (shuffle bo wo h)).
    { pose proof (len_shuffle bo wo h Hev). unfold len in *. lia. }
    rewrite Hs.
    pose proof (to_order_of_order Big (shuffle bo wo h)) as E2.
    cbn [struct.to_order struct.of_order] in E2. rewrite E2.
    apply shuffle_involutive, Hev.
  - rewrite to_order_interp, Hn. apply to_order_of_order.
Qed.

(** X6: the other direction of the round trip, for the integer types: any
    buffer as long as an integer type is wide decodes to a value, and adding
    that value to a fresh builder of the same byte and word order gives back
    the same bytes.  With the round trip of values, encoding an integer type
    is a bijection between the values of the type and the buffers of its
    width. *)
Theorem decode_then_encode
    (t : numtype) (bo wo : Endian) (repack : bool) (s : bytes) :
  is_integer t = true -> len s = width t ->
  exists x,
    run (decode t) (D.__init__ s bo wo) = Ret x /\
    run (add t x ;; B.to_string) (fresh bo wo repack) = Ret s.
Proof.
  intros _ Hlen. exists (decoded t bo wo s).
  assert (Hh : handle_of (D.__init__ s bo wo) (width t) = s)
    by (apply handle_of_init, Hlen).
  split.
  - unfold run. rewrite decode_buffer by (rewrite Hh; exact Hlen).
    cbn [fst D.__init__ D._byteorder D._wordorder]. rewrite Hh. reflexivity.
  - unfold run.
    rewrite (bind_ret_run _ _ _
               (add_run t (decoded t bo wo s) (fresh bo wo repack)
                        (decoded_representable t bo wo s Hlen))).
    rewrite to_string_run.
    cbn [fst fresh B.__init__ B._payload B._byteorder B._wordorder app concat].
    rewrite app_nil_r. rewrite encoded_decoded by exact Hlen. reflexivity.
Qed.

Lemma decode_then_encode_witness :
  is_integer I32 = true /\
  len [Byte.x80; Byte.x00; Byte.xff; Byte.x7f] = width I32 /\
  exists x,
    run (decode I32) (D.__init__ [Byte.x80; Byte.x00; Byte.xff; Byte.x7f] Little Little)
      = Ret x /\
    run (add I32 x ;; B.to_string) (fresh Little Little true)
      = Ret [Byte.x80; Byte.x00; Byte.xff; Byte.x7f].
Proof.
  split; [reflexivity|]. split; [reflexivity|].
  apply (decode_then_encode I32 Little Little true
           [Byte.x80; Byte.x00; Byte.xff; Byte.x7f]);
    reflexivity.
Defined.

(** ** The four configurations *)

Lemma shuffle_big_big s : len s mod 2 = 0 -> shuffle Big Big s = s.
Proof.
  intros H. unfold shuffle, reorder. cbn [Endian_eqb swap].
  rewrite map_id. apply len_even_pairs, H.
Qed.

Lemma concat_map_rev_rev {X} (L : list (list X)) :
  concat (map (@rev X) (rev L)) = rev (concat L).
Proof.
  induction L as [|ch L IH]; [reflexivity|].
  simpl. rewrite map_app, concat_app, IH, rev_app_distr.
  simpl. rewrite app_nil_r. reflexivity.
Qed.

Lemma shuffle_little_little s : len s mod 2 = 0 -> shuffle Little Little s = rev s.
Proof.
  intros H. unfold shuffle, reorder. cbn [Endian_eqb].
  pose proof (concat_map_rev_rev (pairs s)) as E.
  rewrite len_even_pairs in E by exact H. rewrite <- E. reflexivity.
Qed.

(** X7: with byte order big and word order big every numeric type is written
    as the plain big-endian bytes of the value; with byte order little and
    word order little, as its plain little-endian bytes, the big-endian ones
    reversed. *)
Theorem canonical_orders (t : numtype) (x : Z) (repack : bool) :
  representable t x = true ->
  run (add t x ;; B.to_string) (fresh Big Big repack)
    = Ret (struct.be_split (struct.calcsize (code_of t)) x) /\
  run (add t x ;; B.to_string) (fresh Little Little repack)
    = Ret (rev (struct.be_split (struct.calcsize (code_of t)) x)).
Proof.
  intros H.
  assert (R : forall bo wo,
             run (add t x ;; B.to_string) (fresh bo wo repack)
             = Ret (encoded t bo wo x)).
  { intros bo wo. unfold run.
    rewrite (bind_ret_run _ _ _ (add_run t x (fresh bo wo repack) H)).
    rewrite to_string_run.
    cbn [fst fresh B.__init__ B._payload B._byteorder B._wordorder app concat].
    rewrite app_nil_r. reflexivity. }
  rewrite !R. unfold encoded.
  destruct (uses_words t) eqn:W.
  - rewrite shuffle_big_big, shuffle_little_little
      by (rewrite len_be_split; apply calcsize_even, W).
    split; reflexivity.
  - split; [reflexivity|].
    unfold struct.to_order, struct.be_split. rewrite rev_involutive. reflexivity.
Qed.

Lemma canonical_orders_witness :
  representable U32 1 = true /\
  run (add U32 1 ;; B.to_string) (fresh Big Big false)
    = Ret (struct.be_split (struct.calcsize (code_of U32)) 1) /\
  run (add U32 1 ;; B.to_string) (fresh Little Little false)
    = Ret (rev (struct.be_split (struct.calcsize (code_of U32)) 1)).
Proof.
  split; [reflexivity|].
  apply (canonical_orders U32 1 false). reflexivity.
Defined.

Lemma shuffle_one_word bo wo wo' s :
  len s = 2 -> shuffle bo wo s = shuffle bo wo' s.
Proof.
  intros H. destruct s as [|a [|b [|c s]]]; try discriminate H.
  - destruct wo, wo'; reflexivity.
  - unfold len in H. cbn [length] in H. lia.
Qed.

Lemma encoded_one_register t bo wo wo' x :
  width t <= 2 -> encoded t bo wo x = encoded t bo wo' x.
Proof.
  intros Hw. unfold encoded. destruct (uses_words t) eqn:W; [|reflexivity].
  apply shuffle_one_word. rewrite len_be_split, <- width_calcsize.
  destruct t; try discriminate W; cbn in Hw |- *; lia.
Qed.

(** X8: the word order has no effect on a type of one register or less
    (the 8 and 16-bit integers and the 16-bit float): an add call appends the
    same bytes, or raises alike, and a decode call returns the same value, or
    raises alike, whatever the word order of the builder or decoder is. *)
Theorem word_order_single_register
    (t : numtype) (x : Z) (b : B.t) (d : D.t) (wo' : Endian) :
  width t <= 2 ->
  run (add t x ;; B.to_string) b
    = run (add t x ;; B.to_string)
          (B.mk (B._payload b) (B._byteorder b) wo' (B._repack b)) /\
  run (decode t) d
    = run (decode t) (D.mk (D._payload d) (D._pointer d) (D._byteorder d) wo').
Proof.
  intros Hw. split.
  - set (b' := B.mk (B._payload b) (B._byteorder b) wo' (B._repack b)).
    unfold run. destruct (representable t x) eqn:R.
    + rewrite (bind_ret_run _ _ _ (add_run t x b R)).
      rewrite (bind_ret_run _ _ _ (add_run t x b' R)).
      rewrite !to_string_run.
      cbn [fst b' B._payload B._byteorder B._wordorder].
      rewrite (encoded_one_register t (B._byteorder b) (B._wordorder b) wo' x Hw).
      reflexivity.
    + rewrite (bind_raise_run _ _ _ _ _ (add_refused t x b R)).
      rewrite (bind_raise_run _ _ _ _ _ (add_refused t x b' R)).
      reflexivity.
  - set (d' := D.mk (D._payload d) (D._pointer d) (D._byteorder d) wo').
    unfold run. rewrite !decode_run. cbn [fst].
    change (handle_of d' (width t)) with (handle_of d (width t)).
    cbn [d' D._byteorder].
    destruct (uses_words t) eqn:W; [|reflexivity].
    set (h := handle_of d (width t)).
    destruct (Z.eq_dec (len h) (width t)) as [E|E].
    + unfold run.
      rewrite !unpack_words_run with (k := width t / 2);
        try (apply WC_words_width, W);
        try (rewrite width_even by exact W; exact E).
      cbn [fst advanced D._byteorder D._wordorder].
      rewrite (shuffle_one_word (D._byteorder d) (D._wordorder d) wo' h);
        [reflexivity|].
      destruct t; try discriminate W; cbn in Hw, E |- *; lia.
    + rewrite !unpack_words_short with (k := width t / 2);
        try (apply WC_words_width, W);
        try (rewrite width_even by exact W; exact E).
      reflexivity.
Qed.

Lemma word_order_single_register_witness :
  width F16 <= 2 /\
  run (add F16 15360 ;; B.to_string) (B.mk [] Little Big false)
    = run (add F16 15360 ;; B.to_string) (B.mk [] Little Little false) /\
  run (decode F16) (D.mk [Byte.x00; Byte.x3c] 0 Little Big)
    = run (decode F16) (D.mk [Byte.x00; Byte.x3c] 0 Little Little).
Proof.
  split; [vm_compute; discriminate|].
  apply (word_order_single_register F16 15360 (B.mk [] Little Big false)
           (D.mk [Byte.x00; Byte.x3c] 0 Little Big) Little).
  vm_compute; discriminate.
Defined.

(** ** Chunks, registers and coils of any builder *)

Lemma len_coils_of_chunks o (L : list bytes) :
  Forall len2 L ->
  len (concat (map (fun ch => bits_of_bytes (swap o ch)) L)) = 16 * len L.
Proof.
  induction 1 as [|ch L Hch _ IH]; [reflexivity|].
  cbn [map concat]. rewrite len_app, IH.
  assert (E : len (bits_of_bytes (swap o ch)) = 16).
  { pose proof (swap_len2 o Hch) as Hs. unfold len2 in Hs.
    destruct (swap o ch) as [|x [|y [|z r]]]; try discriminate Hs. reflexivity. }
  rewrite E. unfold len. cbn [length]. lia.
Qed.

(** X9: for every builder, of even or odd length, [build] returns the buffer
    cut in chunks of exactly two bytes, in order, followed by one zero byte
    when the length is odd and by nothing when it is even;
    [to_registers] returns one register per chunk, each from 0 to 65535, and
    [to_coils] 16 coils per register. *)
Theorem build_partitions_buffer (b : B.t) :
  exists chunks regs coils,
    run B.build b = Ret chunks /\
    Forall (fun ch => len ch = 2) chunks /\
    concat chunks
      = concat (B._payload b)
        ++ repeat Byte.x00 (Z.to_nat (len (concat (B._payload b)) mod 2)) /\
    run B.to_registers b = Ret regs /\
    len regs = len chunks /\
    len regs = (len (concat (B._payload b)) + 1) / 2 /\
    Forall u16 regs /\
    run B.to_coils b = Ret coils /\
    len coils = 16 * len regs.
Proof.
  set (s := concat (B._payload b)). set (o := register_order b).
  exists (pairs s), (map (struct.of_order o) (pairs s)),
         (concat (map (fun ch => bits_of_bytes (swap o ch)) (pairs s))).
  unfold run. rewrite build_run, to_registers_run, to_coils_run. cbn [fst].
  fold s. fold o.
  assert (Hl : len (map (struct.of_order o) (pairs s)) = len (pairs s))
    by (unfold len; rewrite length_map; reflexivity).
  assert (H1 : Forall (fun ch => len ch = 2) (pairs s)).
  { eapply Forall_impl; [|apply pairs_len2].
    intros ch H. unfold len. rewrite H. reflexivity. }
  assert (H2 : len (map (struct.of_order o) (pairs s)) = (len s + 1) / 2)
    by (rewrite Hl; apply pairs_length).
  assert (H3 : Forall u16 (map (struct.of_order o) (pairs s))).
  { apply Forall_map. eapply Forall_impl; [|apply pairs_len2].
    intros ch. apply of_order_u16. }
  assert (H4 : len (concat (map (fun ch => bits_of_bytes (swap o ch)) (pairs s)))
               = 16 * len (map (struct.of_order o) (pairs s))).
  { rewrite Hl. apply len_coils_of_chunks, pairs_len2. }
  pose proof (pairs_concat s) as H5.
  repeat split; assumption.
Qed.

Lemma of_order_little_swap16 (ch : bytes) :
  len2 ch -> struct.of_order Little ch = swap16 (struct.of_order Big ch).
Proof.
  intros H. unfold swap16. cbn [struct.of_order].
  rewrite be_split2_combine by exact H.
  unfold struct.be_combine. rewrite rev_involutive. reflexivity.
Qed.

(** X10: what repack changes: with repack on and byte order little,
    [to_registers] returns the registers of the same builder with repack off,
    each with its two bytes exchanged; with repack on and byte order big it
    returns the same registers as with repack off.  The word order plays no
    part. *)
Theorem repack_exchanges_register_bytes
    (payload : list bytes) (bo wo wo' : Endian) :
  exists regs,
    run B.to_registers (B.mk payload bo wo false) = Ret regs /\
    run B.to_registers (B.mk payload Big wo' true) = Ret regs /\
    run B.to_registers (B.mk payload Little wo' true) = Ret (map swap16 regs).
Proof.
  exists (map (struct.of_order Big) (pairs (concat payload))).
  unfold run. rewrite !to_registers_run. unfold register_order.
  cbn [fst B._repack B._byteorder B._payload].
  repeat split. f_equal. rewrite map_map.
  apply map_ext_in. intros ch Hin. apply of_order_little_swap16.
  pose proof (pairs_len2 (concat payload)) as F.
  rewrite Forall_forall in F. apply F, Hin.
Qed.

Lemma format_016b_u16 r : u16 r -> format_016b r = Ret (bits16 r).
Proof.
  unfold u16, format_016b. intros [Hlo Hhi].
  destruct (Z.ltb_spec r 0); [lia|].
  assert (Hn : Nat.max 16 (Z.to_nat (Z.log2 r + 1)) = 16%nat).
  { apply Nat.max_l. destruct (Z.eq_dec r 0) as [E|E].
    - rewrite E. cbn. lia.
    - assert (Z.log2 r < 16) by (apply Z.log2_lt_pow2; lia).
      pose proof (Z.log2_nonneg r). lia. }
  rewrite Hn. reflexivity.
Qed.

(** X11: [to_coils] is [to_registers] with every register replaced by its
    16 bits, bit 15 first and bit 0 last, in register order. *)
Theorem coils_are_register_bits (b : B.t) :
  exists regs,
    run B.to_registers b = Ret regs /\
    run B.to_coils b = Ret (flat_map bits16 regs).
Proof.
  eexists. split; [unfold run; rewrite to_registers_run; reflexivity|].
  unfold run, B.to_coils.
  rewrite (bind_ret_run _ _ _ (to_registers_run b)).
  unfold lift, bind, ret.
  rewrite (mapM_ret _ bits16).
  - cbn [fst]. rewrite flat_map_concat_map. reflexivity.
  - apply Forall_map. eapply Forall_impl; [|apply pairs_len2].
    intros ch Hch. apply format_016b_u16, of_order_u16, Hch.
Qed.

(** ** The factories on any list *)

Lemma pack_obj_H x :
  struct.pack_obj Big struct.c_H x
  = if is_u16_obj x
    then Ret (struct.be_split 2 (match x with
                                 | PyInt z => z
                                 | PyBool c => Z.b2z c
                                 | _ => 0
                                 end))
    else Raise struct_error.
Proof.
  destruct x as [|c|z|s|l|l]; try reflexivity.
  destruct c; reflexivity.
Qed.

Lemma mapM_pack_obj_H (l : list pyobj) :
  match mapM (struct.pack_obj Big struct.c_H) l with
  | Ret packed => forallb is_u16_obj l = true /\ len (concat packed) = 2 * len l
  | Raise e => forallb is_u16_obj l = false /\ e = struct_error
  end.
Proof.
  induction l as [|x l IH]; [split; reflexivity|].
  cbn [mapM forallb]. rewrite pack_obj_H.
  destruct (is_u16_obj x); cbn [rbind andb]; [|split; reflexivity].
  destruct (mapM (struct.pack_obj Big struct.c_H) l) as [packed|e]; cbn [rbind].
  - destruct IH as [IH1 IH2]. split; [exact IH1|].
    cbn [concat]. rewrite len_app, IH2, len_be_split.
    unfold len. cbn [length]. lia.
  - exact IH.
Qed.

(** X12: given a list, [fromRegisters] returns a decoder exactly when every
    element is an integer from 0 to 65535 (or a boolean); the decoder then
    holds two bytes per element, its cursor at 0, with the byte and word order
    given.  Otherwise it raises struct.error, not ParameterException. *)
Theorem fromRegisters_on_lists (l : list pyobj) (bo wo : Endian) :
  match D.fromRegisters (PyList l) bo wo with
  | Ret d =>
      forallb is_u16_obj l = true /\
      len (D._payload d) = 2 * len l /\
      D._pointer d = 0 /\ D._byteorder d = bo /\ D._wordorder d = wo
  | Raise e => forallb is_u16_obj l = false /\ e = struct_error
  end.
Proof.
  unfold D.fromRegisters. pose proof (mapM_pack_obj_H l) as H.
  destruct (mapM (struct.pack_obj Big struct.c_H) l) as [packed|e]; cbn [rbind].
  - destruct H as [H1 H2]. repeat split; assumption.
  - exact H.
Qed.

(** ** bit_chunks *)

Lemma py_chunks_short {A} (l : list A) (k : Z) :
  0 < len l <= k -> py_chunks l k = [l].
Proof.
  intros [Hlo Hhi]. unfold py_chunks, py_range0.
  replace (len l + k - 1) with ((len l - 1) + 1 * k) by lia.
  rewrite Z.div_add by lia. rewrite Z.div_small by lia.
  change (Z.to_nat (0 + 1)) with 1%nat. cbn [seq map].
  change (Z.of_nat 0 * k) with 0. change (0 + k) with k. f_equal.
  rewrite py_slice_from by lia.
  rewrite (Z.min_r k) by lia. rewrite Z.min_l by lia.
  rewrite Z.sub_0_r. cbn [Z.to_nat skipn]. unfold len. rewrite Nat2Z.id.
  apply firstn_all.
Qed.

Lemma chunk_count_step (n k : Z) :
  0 < k -> 0 <= n -> (n + k + k - 1) / k = 1 + (n + k - 1) / k.
Proof.
  intros Hk Hn. replace (n + k + k - 1) with ((n + k - 1) + 1 * k) by lia.
  rewrite Z.div_add by lia. lia.
Qed.

Lemma bit_chunks_spec {A} (size : Z) (n : nat) :
  0 < size -> forall l : list A, (length l <= n)%nat ->
  concat (D.bit_chunks l size) = l /\
  Forall (fun c => 0 < len c <= size) (D.bit_chunks l size) /\
  Forall (fun c => len c = size) (removelast (D.bit_chunks l size)) /\
  len (D.bit_chunks l size) = (len l + size - 1) / size.
Proof.
  intros Hsize. unfold D.bit_chunks.
  induction n as [|n IH]; intros l Hn.
  - destruct l; [|cbn [length] in Hn; lia].
    rewrite py_chunks_nil by exact Hsize. cbn [concat removelast].
    repeat split; try constructor.
    unfold len. cbn [length Z.of_nat]. rewrite Z.div_small by lia. reflexivity.
  - pose proof (len_nonneg l) as Hl.
    destruct (Z.eq_dec (len l) 0) as [E0|E0].
    { apply IH. unfold len in E0. lia. }
    destruct (Z.le_gt_cases (len l) size) as [Hle|Hgt].
    + rewrite py_chunks_short by lia. cbn [concat removelast].
      rewrite app_nil_r. repeat split; try constructor; try lia; try constructor.
      replace (len l + size - 1) with ((len l - 1) + 1 * size) by lia.
      rewrite Z.div_add by lia. rewrite Z.div_small by lia. reflexivity.
    + set (g := firstn (Z.to_nat size) l). set (rest := skipn (Z.to_nat size) l).
      assert (Hg : len g = size).
      { unfold g, len in *. rewrite length_firstn. lia. }
      assert (Hr : len rest = len l - size).
      { unfold rest, len in *. rewrite length_skipn. lia. }
      assert (El : l = g ++ rest) by (symmetry; apply firstn_skipn).
      destruct (IH rest) as [Hc [Hf [Hb Hcount]]].
      { unfold len in *. lia. }
      assert (Hlen : len l = size + len rest) by lia.
      assert (Hne : py_chunks rest size <> []).
      { intros E. rewrite E in Hc. cbn [concat] in Hc.
        rewrite <- Hc in Hr. unfold len in *. cbn [length] in Hr. lia. }
      clearbody g rest. subst l. rewrite py_chunks_cons by assumption.
      repeat split.
      * cbn [concat]. rewrite Hc. reflexivity.
      * constructor; [lia|exact Hf].
      * destruct (py_chunks rest size) as [|c cs] eqn:Ec; [contradiction|].
        change (removelast (g :: c :: cs)) with (g :: removelast (c :: cs)).
        constructor; assumption.
      * unfold len at 1. cbn [length]. rewrite Nat2Z.inj_succ.
        fold (len (py_chunks rest size)). rewrite Hcount, Hlen.
        pose proof (len_nonneg rest).
        replace (size + len rest + size - 1) with (len rest + size + size - 1) by lia.
        rewrite chunk_count_step by lia. lia.
Qed.

(** X13: for a positive size, [bit_chunks] cuts a list into consecutive
    chunks whose concatenation is the list: no chunk is empty, every chunk
    but the last has exactly [size] elements and the last at most [size], and
    there are ceil(len / size) of them (none for the empty list). *)
Theorem bit_chunks_partition {A} (l : list A) (size : Z) :
  0 < size ->
  concat (D.bit_chunks l size) = l /\
  Forall (fun c => 0 < len c <= size) (D.bit_chunks l size) /\
  Forall (fun c => len c = size) (removelast (D.bit_chunks l size)) /\
  len (D.bit_chunks l size) = (len l + size - 1) / size.
Proof.
  intros H. apply (bit_chunks_spec size (length l) H l). apply Nat.le_refl.
Qed.

Lemma bit_chunks_partition_witness :
  0 < 8 /\
  concat (D.bit_chunks (repeat true 11) 8) = repeat true 11 /\
  Forall (fun c => 0 < len c <= 8) (D.bit_chunks (repeat true 11) 8) /\
  Forall (fun c => len c = 8) (removelast (D.bit_chunks (repeat true 11) 8)) /\
  len (D.bit_chunks (repeat true 11) 8) = (len (repeat true 11) + 8 - 1) / 8.
Proof.
  split; [reflexivity|].
  apply (bit_chunks_partition (repeat true 11) 8). reflexivity.
Defined.

(** ** Passes over a decoder *)

Lemma fold_step_frame ops : forall d,
  D._payload (fold_left step ops d) = D._payload d /\
  D._byteorder (fold_left step ops d) = D._byteorder d /\
  D._wordorder (fold_left step ops d) = D._wordorder d.
Proof.
  induction ops as [|o ops IH]; intros d; [repeat split|].
  cbn [fold_left]. destruct (IH (step d o)) as [H1 [H2 H3]].
  rewrite H1, H2, H3, step_spec. repeat split.
Qed.

(** X14: whatever calls a decoder has gone through, in or out of bounds,
    returned or raised, after [reset] any sequence of calls returns and
    raises exactly what it does on a decoder newly made of the same buffer,
    byte order and word order: a second pass repeats the first. *)
Theorem reset_gives_second_pass
    (before ops : list op) (payload : bytes) (bo wo : Endian) :
  outcomes ops (step (fold_left step before (D.__init__ payload bo wo)) Reset)
  = outcomes ops (D.__init__ payload bo wo).
Proof.
  rewrite step_spec.
  destruct (fold_step_frame before (D.__init__ payload bo wo)) as [H1 [H2 H3]].
  rewrite H1, H2, H3. reflexivity.
Qed.

(** X15: with the cursor [p] not negative and at least [size >= 0] bytes
    left, [decode_string(size)] returns exactly the [size] bytes from [p] on
    and moves the cursor to [p + size]. *)
Theorem decode_string_in_bounds (d : D.t) (size : Z) :
  0 <= D._pointer d -> 0 <= size -> size <= remaining d ->
  exists s,
    D.decode_string size d
      = (Ret s, D.mk (D._payload d) (D._pointer d + size)
                     (D._byteorder d) (D._wordorder d)) /\
    s = firstn (Z.to_nat size) (skipn (Z.to_nat (D._pointer d)) (D._payload d)) /\
    len s = size.
Proof.
  intros Hp Hs Hr. destruct (handle_full d size Hp Hs Hr) as [Hh Hlen].
  exists (handle_of d size). repeat split; assumption.
Qed.

Lemma decode_string_in_bounds_witness :
  0 <= D._pointer (D.mk [Byte.x61; Byte.x62; Byte.x63; Byte.x64] 1 Little Big) /\
  0 <= 2 /\
  2 <= remaining (D.mk [Byte.x61; Byte.x62; Byte.x63; Byte.x64] 1 Little Big) /\
  exists s,
    D.decode_string 2 (D.mk [Byte.x61; Byte.x62; Byte.x63; Byte.x64] 1 Little Big)
      = (Ret s, D.mk [Byte.x61; Byte.x62; Byte.x63; Byte.x64] (1 + 2) Little Big) /\
    s = [Byte.x62; Byte.x63] /\
    len s = 2.
Proof.
  assert (H0 : 0 <= D._pointer (D.mk [Byte.x61; Byte.x62; Byte.x63; Byte.x64] 1 Little Big))
    by (simpl; lia).
  assert (H1 : 0 <= 2) by lia.
  assert (H2 : 2 <= remaining (D.mk [Byte.x61; Byte.x62; Byte.x63; Byte.x64] 1 Little Big))
    by (vm_compute; discriminate).
  split; [exact H0|]. split; [exact H1|]. split; [exact H2|].
  apply (decode_string_in_bounds
           (D.mk [Byte.x61; Byte.x62; Byte.x63; Byte.x64] 1 Little Big) 2 H0 H1 H2).
Defined.

(** X16: [skip_bytes] with a negative count moves the cursor back: after a
    numeric decode call that returned, skipping minus the width of the type
    leaves the decoder exactly as it was before the call, and the same decode
    call then returns the same value again.  (When the first call raises,
    nothing after it runs and the cursor stays advanced.) *)
Theorem negative_skip_rereads (t : numtype) (d : D.t) :
  run (decode t ;; D.skip_bytes (- width t) ;; decode t) d = run (decode t) d /\
  exec (decode t ;; D.skip_bytes (- width t)) d
    = if is_raise (run (decode t) d) then advanced d (width t) else d.
Proof.
  assert (Hback : D.skip_bytes (- width t) (advanced d (width t)) = (Ret tt, d)).
  { unfold D.skip_bytes, D.advance, advanced.
    cbn [D._payload D._pointer D._byteorder D._wordorder].
    replace (D._pointer d + width t + - width t) with (D._pointer d) by lia.
    destruct d; reflexivity. }
  unfold run, exec, bind. rewrite decode_run.
  set (r := if uses_words t then _ else _).
  destruct r as [x|e] eqn:Er.
  - rewrite Hback. split; [|reflexivity].
    rewrite decode_run. fold r. rewrite Er. reflexivity.
  - split; reflexivity.
Qed.

(** ** Decoding under another configuration than the encoder's *)

Lemma shuffle_shuffle bo wo bo' wo' s :
  shuffle bo' wo' (shuffle bo wo s)
  = concat (map (fun ch => swap bo' (swap bo ch))
                (reorder wo' (reorder wo (pairs s)))).
Proof.
  unfold shuffle at 1. unfold shuffle.
  rewrite pairs_concat_len2 by apply shuffled_len2.
  rewrite reorder_map, map_map. reflexivity.
Qed.

Lemma decode_exact_buffer t bo wo h :
  len h = width t ->
  run (decode t) (D.__init__ h bo wo) = Ret (decoded t bo wo h).
Proof.
  intros Hlen.
  assert (Hh : handle_of (D.__init__ h bo wo) (width t) = h)
    by (apply handle_of_init, Hlen).
  unfold run. rewrite decode_buffer by (rewrite Hh; exact Hlen).
  cbn [fst D.__init__ D._byteorder D._wordorder]. rewrite Hh. reflexivity.
Qed.

Lemma encode_fresh t x bo wo repack :
  representable t x = true ->
  run (add t x ;; B.to_string) (fresh bo wo repack) = Ret (encoded t bo wo x).
Proof.
  intros H. unfold run.
  rewrite (bind_ret_run _ _ _ (add_run t x (fresh bo wo repack) H)).
  rewrite to_string_run.
  cbn [fst fresh B.__init__ B._payload B._byteorder B._wordorder app concat].
  rewrite app_nil_r. reflexivity.
Qed.

Lemma reorder_other {X} wo wo' (L : list X) :
  wo <> wo' -> reorder wo' (reorder wo L) = rev L.
Proof.
  unfold reorder. destruct wo, wo'; cbn [Endian_eqb]; intros H;
    try reflexivity; contradiction H; reflexivity.
Qed.

Lemma swap_other bo bo' ch : bo <> bo' -> swap bo' (swap bo ch) = rev ch.
Proof.
  destruct bo, bo'; cbn [swap]; intros H;
    try reflexivity; contradiction H; reflexivity.
Qed.

(** X17: a multi-word value decoded with the other word order than it was
    encoded with (same byte order) does not raise: the decode call returns
    the value whose 16-bit words are those of the value written, in reverse
    order. *)
Theorem word_order_mismatch
    (t : numtype) (x : Z) (bo wo wo' : Endian) (repack : bool) :
  uses_words t = true -> representable t x = true -> wo <> wo' ->
  exists buffer,
    run (add t x ;; B.to_string) (fresh bo wo repack) = Ret buffer /\
    run (decode t) (D.__init__ buffer bo wo')
    = Ret (struct.interp (code_of t)
             (struct.be_combine
                (concat (rev (pairs (struct.be_split (struct.calcsize (code_of t)) x)))))).
Proof.
  intros W H Hne. exists (encoded t bo wo x).
  split; [apply encode_fresh, H|].
  rewrite decode_exact_buffer by apply len_encoded.
  unfold decoded, encoded. rewrite W.
  rewrite shuffle_shuffle, (reorder_other wo wo') by exact Hne.
  rewrite (map_ext _ (fun ch => ch)) by (intros; apply swap_involutive).
  rewrite map_id. reflexivity.
Qed.

Lemma word_order_mismatch_witness :
  uses_words U32 = true /\ representable U32 1 = true /\ Big <> Little /\
  exists buffer,
    run (add U32 1 ;; B.to_string) (fresh Little Big false) = Ret buffer /\
    run (decode U32) (D.__init__ buffer Little Little)
    = Ret (struct.interp (code_of U32)
             (struct.be_combine
                (concat (rev (pairs (struct.be_split (struct.calcsize (code_of U32)) 1)))))).
Proof.
  assert (Hne : Big <> Little) by discriminate.
  split; [reflexivity|]. split; [reflexivity|]. split; [exact Hne|].
  apply (word_order_mismatch U32 1 Little Big Little false eq_refl eq_refl Hne).
Defined.

Lemma of_order_other bo bo' (s : bytes) :
  bo <> bo' -> struct.of_order bo' (swap bo s) = struct.be_combine (rev (swap Big s)).
Proof.
  unfold struct.of_order, struct.be_combine.
  destruct bo, bo'; cbn [swap]; intros H;
    try (contradiction H; reflexivity); rewrite ?rev_involutive; reflexivity.
Qed.

Lemma to_order_swap bo n x : struct.to_order bo n x = swap bo (struct.be_split n x).
Proof.
  destruct bo; cbn [struct.to_order swap]; [reflexivity|].
  unfold struct.be_split. rewrite rev_involutive. reflexivity.
Qed.

(** X18: a value of two bytes or more decoded with the other byte order than
    it was encoded with (same word order) does not raise: the decode call
    returns the value whose 16-bit words are those of the value written, each
    with its two bytes exchanged. *)
Theorem byte_order_mismatch
    (t : numtype) (x : Z) (bo bo' wo : Endian) (repack : bool) :
  2 <= width t -> representable t x = true -> bo <> bo' ->
  exists buffer,
    run (add t x ;; B.to_string) (fresh bo wo repack) = Ret buffer /\
    run (decode t) (D.__init__ buffer bo' wo)
    = Ret (struct.interp (code_of t)
             (struct.be_combine
                (concat (map (@rev byte)
                             (pairs (struct.be_split (struct.calcsize (code_of t)) x)))))).
Proof.
  intros Hw H Hne. exists (encoded t bo wo x).
  split; [apply encode_fresh, H|].
  rewrite decode_exact_buffer by apply len_encoded.
  unfold decoded, encoded. destruct (uses_words t) eqn:W.
  - rewrite shuffle_shuffle, reorder_involutive.
    rewrite (map_ext _ (@rev byte)) by (intros; apply swap_other, Hne).
    reflexivity.
  - rewrite to_order_swap, (of_order_other bo bo') by exact Hne. cbn [swap].
    assert (Hl : length (struct.be_split (struct.calcsize (code_of t)) x) = 2%nat).
    { pose proof (len_be_split (struct.calcsize (code_of t)) x) as L.
      rewrite <- width_calcsize in L. unfold len in L.
      destruct t; try discriminate W; cbn [width] in Hw, L; lia. }
    destruct (struct.be_split (struct.calcsize (code_of t)) x)
      as [|a [|c [|e r]]]; try discriminate Hl.
    reflexivity.
Qed.

Lemma byte_order_mismatch_witness :
  2 <= width U16 /\ representable U16 258 = true /\ Little <> Big /\
  exists buffer,
    run (add U16 258 ;; B.to_string) (fresh Little Big false) = Ret buffer /\
    run (decode U16) (D.__init__ buffer Big Big)
    = Ret (struct.interp (code_of U16)
             (struct.be_combine
                (concat (map (@rev byte)
                             (pairs (struct.be_split (struct.calcsize (code_of U16)) 258)))))).
Proof.
  assert (Hne : Little <> Big) by discriminate.
  assert (Hw : 2 <= width U16) by (vm_compute; discriminate).
  split; [exact Hw|]. split; [reflexivity|]. split; [exact Hne|].
  apply (byte_order_mismatch U16 258 Little Big Big false Hw eq_refl Hne).
Defined.
